(** * The animal ETL pipeline: a shallow embedding and its properties

    The development follows the repository file by file: [config.py],
    [models.py], [transformers.py], [api_client.py] and [etl_processor.py].
    Python values are embedded as follows.

    - [int] is [Z]; [str] is [string], a character being a code point below
      256; [None] is the [None] of an [option]; lists are lists.
    - An exception is a value of [exn]; a call that may raise returns a
      [result].  [try]/[except] is a [match] on the result, one branch per
      [except] clause, in the order of the clauses.
    - The network is a deterministic server, a function of the requests sent
      so far and of the request at hand; a call that uses the network threads
      the list of requests sent, oldest first.
    - Logging and the waits between retries are not modelled. *)

From Stdlib Require Import ZArith List String Ascii Bool Lia.
From Stdlib Require Import DecimalString.
Import ListNotations.

Open Scope string_scope.
Open Scope Z_scope.
Open Scope list_scope.

(** ** Python strings *)

Module PyStr.

(** [str(n)] for an [int]. *)
Definition str_of_int (n : Z) : string :=
  NilZero.string_of_int (Z.to_int n).

(** Truth value of a [str]: the empty string is false. *)
Definition truthy (s : string) : bool :=
  negb (s =? "")%string.

(** [c.isspace()] for a code point below 256: tab to carriage return, the
    four separators 28..31, the space, NEL (133) and the no-break space. *)
Definition isspace (c : ascii) : bool :=
  let n := nat_of_ascii c in
  ((9 <=? n) && (n <=? 13) || (28 <=? n) && (n <=? 32)
   || (n =? 133) || (n =? 160))%nat.

(** [s.lstrip()], [s.rstrip()] and [s.strip()] without argument. *)
Fixpoint lstrip (s : string) : string :=
  match s with
  | EmptyString => EmptyString
  | String c s' => if isspace c then lstrip s' else s
  end.

Fixpoint rstrip (s : string) : string :=
  match s with
  | EmptyString => EmptyString
  | String c s' =>
      match rstrip s' with
      | EmptyString => if isspace c then EmptyString else String c EmptyString
      | r => String c r
      end
  end.

Definition strip (s : string) : string := rstrip (lstrip s).

(** [s.split(sep)] for a separator of one character: the pieces between the
    separators, empty pieces included; the empty string gives one empty
    piece. *)
Fixpoint split (sep : ascii) (s : string) : list string :=
  match s with
  | EmptyString => [EmptyString]
  | String c s' =>
      if Ascii.eqb c sep then EmptyString :: split sep s'
      else match split sep s' with
           | [] => [String c EmptyString]
           | piece :: pieces => String c piece :: pieces
           end
  end.

(** [sep.join(pieces)]. *)
Fixpoint join (sep : ascii) (pieces : list string) : string :=
  match pieces with
  | [] => EmptyString
  | [p] => p
  | p :: ps => (p ++ String sep (join sep ps))%string
  end.

(** Every character of [s] is white space. *)
Fixpoint all_space (s : string) : bool :=
  match s with
  | EmptyString => true
  | String c s' => isspace c && all_space s'
  end.

(** [c] occurs in [s]. *)
Fixpoint occurs (c : ascii) (s : string) : bool :=
  match s with
  | EmptyString => false
  | String d s' => Ascii.eqb d c || occurs c s'
  end.

(** A blank entry: empty, or white space only. *)
Definition blank (s : string) : bool := (strip s =? "")%string.

End PyStr.

(** ** The [datetime] type of Python's standard library

    A [datetime] is its calendar fields and its [tzinfo]; a time zone is
    known by its offset from UTC in seconds, which is all that [astimezone]
    and [isoformat] read of it.  The calendar arithmetic is that of
    [datetime.py] (proleptic Gregorian, day 1 is 0001-01-01). *)

Module Datetime.

Record datetime := mk_datetime {
  year : Z; month : Z; day : Z;
  hour : Z; minute : Z; second : Z; microsecond : Z;
  tzinfo : option Z
}.

Definition MINYEAR := 1.
Definition MAXYEAR := 9999.

(** [tz.UTC]. *)
Definition UTC : Z := 0.

Definition is_leap (y : Z) : bool :=
  (y mod 4 =? 0) && (negb (y mod 100 =? 0) || (y mod 400 =? 0)).

Definition days_in_month (y m : Z) : Z :=
  if m =? 2 then (if is_leap y then 29 else 28)
  else if (m =? 4) || (m =? 6) || (m =? 9) || (m =? 11) then 30
  else 31.

(** Days before the first of month [m] in a year that is not leap. *)
Definition DAYS_BEFORE_MONTH (m : Z) : Z :=
  nth (Z.to_nat m) [0; 0; 31; 59; 90; 120; 151; 181; 212; 243; 273; 304; 334] 0.

Definition days_before_year (y : Z) : Z :=
  let y := y - 1 in y * 365 + y / 4 - y / 100 + y / 400.

Definition days_before_month (y m : Z) : Z :=
  DAYS_BEFORE_MONTH m + (if (2 <? m) && is_leap y then 1 else 0).

Definition ymd2ord (y m d : Z) : Z :=
  days_before_year y + days_before_month y m + d.

Definition DI400Y := 146097.
Definition DI100Y := 36524.
Definition DI4Y := 1461.

(** [_ord2ymd]: the date of ordinal [n]. *)
Definition ord2ymd (n : Z) : Z * Z * Z :=
  let n := n - 1 in
  let n400 := n / DI400Y in
  let n := n mod DI400Y in
  let y := n400 * 400 + 1 in
  let n100 := n / DI100Y in
  let n := n mod DI100Y in
  let n4 := n / DI4Y in
  let n := n mod DI4Y in
  let n1 := n / 365 in
  let n := n mod 365 in
  let y := y + n100 * 100 + n4 * 4 + n1 in
  if (n1 =? 4) || (n100 =? 4) then (y - 1, 12, 31)
  else
    let leapyear := (n1 =? 3) && (negb (n4 =? 24) || (n100 =? 3)) in
    let m := Z.shiftr (n + 50) 5 in
    let preceding :=
      DAYS_BEFORE_MONTH m + (if (2 <? m) && leapyear then 1 else 0) in
    if n <? preceding then
      let m := m - 1 in
      let preceding :=
        preceding
        - (nth (Z.to_nat m) [0; 31; 28; 31; 30; 31; 30; 31; 31; 30; 31; 30; 31] 0
           + (if (m =? 2) && leapyear then 1 else 0)) in
      (y, m, n - preceding + 1)
    else (y, m, n - preceding + 1).

(** The fields are those of a date and a time Python accepts. *)
Definition valid (d : datetime) : bool :=
  (MINYEAR <=? year d) && (year d <=? MAXYEAR)
  && (1 <=? month d) && (month d <=? 12)
  && (1 <=? day d) && (day d <=? days_in_month (year d) (month d))
  && (0 <=? hour d) && (hour d <? 24)
  && (0 <=? minute d) && (minute d <? 60)
  && (0 <=? second d) && (second d <? 60)
  && (0 <=? microsecond d) && (microsecond d <? 1000000)
  && match tzinfo d with
     | None => true
     | Some off => (-86400 <? off) && (off <? 86400)
     end.

(** [d.replace(tzinfo=tz)]. *)
Definition replace_tzinfo (d : datetime) (tz : Z) : datetime :=
  mk_datetime (year d) (month d) (day d) (hour d) (minute d) (second d)
    (microsecond d) (Some tz).

(** Seconds from 0001-01-01T00:00:00 on the clock of [d]. *)
Definition wall_seconds (d : datetime) : Z :=
  (ymd2ord (year d) (month d) (day d) - 1) * 86400
  + hour d * 3600 + minute d * 60 + second d.

(** [d.astimezone(tz)] for an aware [d]: the same instant on the clock of
    [tz]; [None] when the year leaves [MINYEAR..MAXYEAR], where Python raises
    [OverflowError].  (The code calls it on aware values only.) *)
Definition astimezone (d : datetime) (tz : Z) : option datetime :=
  let off := match tzinfo d with Some o => o | None => 0 end in
  let t := wall_seconds d - off + tz in
  let '(y, m, dd) := ord2ymd (t / 86400 + 1) in
  let r := t mod 86400 in
  if (MINYEAR <=? y) && (y <=? MAXYEAR) then
    Some (mk_datetime y m dd (r / 3600) (r mod 3600 / 60) (r mod 60)
            (microsecond d) (Some tz))
  else None.

(** ["%0*d" % (width, n)] for [n >= 0]. *)
Definition zero_padded (width : nat) (n : Z) : string :=
  let s := PyStr.str_of_int n in
  (string_of_list_ascii
     (repeat "0"%char (width - String.length s)) ++ s)%string.

(** The offset as [isoformat] writes it: [+HH:MM], and [:SS] when the offset
    has seconds. *)
Definition format_offset (off : Z) : string :=
  let sign := if off <? 0 then "-" else "+" in
  let a := Z.abs off in
  let hh := zero_padded 2 (a / 3600) in
  let mm := zero_padded 2 (a mod 3600 / 60) in
  let ss := if a mod 60 =? 0 then "" else (":" ++ zero_padded 2 (a mod 60))%string in
  (sign ++ hh ++ ":" ++ mm ++ ss)%string.

(** [d.isoformat(sep)]. *)
Definition isoformat_sep (sep : string) (d : datetime) : string :=
  let us :=
    if microsecond d =? 0 then ""
    else ("." ++ zero_padded 6 (microsecond d))%string in
  let off :=
    match tzinfo d with
    | None => ""
    | Some off => format_offset off
    end in
  (zero_padded 4 (year d) ++ "-" ++ zero_padded 2 (month d) ++ "-"
   ++ zero_padded 2 (day d) ++ sep ++ zero_padded 2 (hour d) ++ ":"
   ++ zero_padded 2 (minute d) ++ ":" ++ zero_padded 2 (second d)
   ++ us ++ off)%string.

(** [d.isoformat()]. *)
Definition isoformat (d : datetime) : string := isoformat_sep "T" d.

End Datetime.

(** ** Exceptions and results *)

(** The exception classes the code raises, catches or lets through.
    [HTTPError] is [requests.HTTPError], a [requests.RequestException]; every
    other failure of [requests] reaches the code as an [outcome] of the
    request (see [api_client]). *)
Inductive exn :=
| APIError (message : string) (status_code : option Z)
    (response_text : option string)
| TransformationError (message : string) (animal_id : option Z)
    (field : option string)
| ValueError (message : string)
| TypeError (message : string)
| OverflowError (message : string)
| HTTPError (message : string) (status_code : Z) (response_text : string).

(** [str(e)]. *)
Definition exn_str (e : exn) : string :=
  match e with
  | APIError m _ _ | TransformationError m _ _ | ValueError m | TypeError m
  | OverflowError m | HTTPError m _ _ => m
  end.

Definition is_APIError (e : exn) : bool :=
  match e with APIError _ _ _ => true | _ => false end.

(** [ValueError] and its subclasses. *)
Definition is_ValueError (e : exn) : bool :=
  match e with ValueError _ => true | _ => false end.

(** [requests.RequestException] and its subclasses. *)
Definition is_RequestException (e : exn) : bool :=
  match e with HTTPError _ _ _ => true | _ => false end.

Inductive result (A : Type) : Type :=
| Ok (a : A)
| Raise (e : exn).
Arguments Ok {A} a.
Arguments Raise {A} e.

Definition is_Ok {A} (r : result A) : bool :=
  match r with Ok _ => true | Raise _ => false end.

Definition bind {A B} (r : result A) (k : A -> result B) : result B :=
  match r with
  | Ok a => k a
  | Raise e => Raise e
  end.

Notation "x <- r ;; k" := (bind r (fun x => k))
  (at level 61, r at next level, right associativity).

(** ** config.py *)

Module config.

(** The settings read from the environment when the module is loaded. *)
Record t := {
  BATCH_SIZE : Z;
  MAX_RETRIES : Z;
  DEFAULT_PAGE_SIZE : Z;
  START_PAGE : Z
}.

(** The values taken when the environment sets none. *)
Definition defaults : t :=
  {| BATCH_SIZE := 100; MAX_RETRIES := 3;
     DEFAULT_PAGE_SIZE := 20; START_PAGE := 1 |}.

Definition ANIMALS_LIST_ENDPOINT : string := "/animals/v1/animals".
Definition ANIMAL_DETAIL_ENDPOINT (id : Z) : string :=
  ("/animals/v1/animals/" ++ PyStr.str_of_int id)%string.
Definition HOME_ENDPOINT : string := "/animals/v1/home".

Definition RETRY_STATUS_CODES : list Z := [500; 502; 503; 504].

End config.

(** ** models.py *)

(** A Python object the pipeline never looks into: the code reads its truth
    value and its [str()] only. *)
Record pyobj := { obj_truthy : bool; obj_str : string }.

(** A [str] seen as such an object. *)
Definition obj_of_str (s : string) : pyobj :=
  {| obj_truthy := PyStr.truthy s; obj_str := s |}.

Module AnimalSummary.
Record t := { id : Z; name : string; extra : list (string * pyobj) }.
End AnimalSummary.

(** [Union[str, List[str]]]. *)
Inductive friends_value :=
| FriendsStr (s : string)
| FriendsList (l : list string).

(** [Union[str, datetime]]. *)
Inductive born_at_value :=
| BornStr (s : string)
| BornDatetime (d : Datetime.datetime).

Module AnimalDetail.

Record t := {
  id : Z;
  name : string;
  friends : friends_value;
  born_at : option born_at_value;
  extra : list (string * pyobj)
}.

(** What the validator of [friends] tells apart in the value it is given. *)
Inductive friends_input :=
| FriendsInStr (s : string)
| FriendsInList (items : list pyobj)
| FriendsInNone
| FriendsInOther (v : pyobj).

(** What the validator of [born_at] tells apart in the value it is given. *)
Inductive born_at_input :=
| BornInNone
| BornInStr (s : string)
| BornInDatetime (d : Datetime.datetime)
| BornInOther (v : pyobj).

Definition validate_friends (v : friends_input) : friends_value :=
  match v with
  | FriendsInStr s => FriendsStr s
  | FriendsInList items =>
      FriendsList (map obj_str (filter obj_truthy items))
  | FriendsInNone => FriendsStr ""
  | FriendsInOther o => FriendsStr (obj_str o)
  end.

Definition validate_born_at (v : born_at_input) : option born_at_value :=
  match v with
  | BornInNone => None
  | BornInStr s => if (s =? "")%string then None else Some (BornStr s)
  | BornInDatetime d => Some (BornDatetime d)
  | BornInOther o => Some (BornStr (obj_str o))
  end.

(** [AnimalDetail(id=.., name=.., friends=.., born_at=.., **extra)]: the two
    validators run on the values given. *)
Definition make (id : Z) (name : string) (friends : friends_input)
    (born_at : born_at_input) (extra : list (string * pyobj)) : t :=
  {| id := id; name := name; friends := validate_friends friends;
     born_at := validate_born_at born_at; extra := extra |}.

End AnimalDetail.

Module TransformedAnimal.
Record t := {
  id : Z;
  name : string;
  friends : list string;
  born_at : option string;
  extra : list (string * pyobj)
}.
End TransformedAnimal.

Module PaginatedResponse.

Record t := {
  page : Z;
  total_pages : Z;
  items : list AnimalSummary.t
}.

(** The validator that runs before the fields are read; [None] is a key the
    JSON object does not have. *)
Definition check_pagination (page total_pages : option Z) : result unit :=
  if match page with Some p => p <? 1 | None => false end
  then Raise (ValueError "page must be >= 1")
  else if match total_pages with Some tp => tp <? 1 | None => false end
  then Raise (ValueError "total_pages must be >= 1")
  else Ok tt.

End PaginatedResponse.

(** ** transformers.py *)

Module transformers.
Import PyStr.

(** [transform_friends(friends_str)].  The argument is a [str] or [None].
    The body of the [try] splits and strips a [str], which raises nothing, so
    the function returns a list on every input. *)
Definition transform_friends (friends_str : option string) : list string :=
  match friends_str with
  | None => []
  | Some s =>
      if negb (truthy s) || (strip s =? "")%string then []
      else
        let friends_list := map strip (split "," s) in
        let friends_list := filter truthy friends_list in
        friends_list
  end.

(** [d.astimezone(tz.UTC)], with the error Python raises when the result
    leaves the years a [datetime] can hold. *)
Definition astimezone_UTC (d : Datetime.datetime) : result Datetime.datetime :=
  match Datetime.astimezone d Datetime.UTC with
  | Some u => Ok u
  | None => Raise (OverflowError "date value out of range")
  end.

Section with_parser.

(** [dateutil.parser.parse], a library outside the repository: it returns a
    [datetime] or raises; [ParserError] is a [ValueError]. *)
Variable parse : string -> result Datetime.datetime.

Definition transform_born_at (born_at_val : option born_at_value)
  : result (option string) :=
  match born_at_val with
  | None => Ok None
  | Some (BornDatetime d) =>
      match Datetime.tzinfo d with
      | None =>
          Ok (Some (Datetime.isoformat (Datetime.replace_tzinfo d Datetime.UTC)))
      | Some _ =>
          u <- astimezone_UTC d ;; Ok (Some (Datetime.isoformat u))
      end
  | Some (BornStr s) =>
      if (strip s =? "")%string then Ok None
      else
        let attempt :=
          parsed_date <- parse s ;;
          utc_date <-
            match Datetime.tzinfo parsed_date with
            | None => Ok (Datetime.replace_tzinfo parsed_date Datetime.UTC)
            | Some _ => astimezone_UTC parsed_date
            end ;;
          Ok (Some (Datetime.isoformat utc_date)) in
        match attempt with
        | Raise (ValueError m) =>
            Raise (TransformationError
                     ("Failed to parse born_at value '" ++ s ++ "': " ++ m)
                     None (Some "born_at"))
        | r => r
        end
  end.

(** [transform_animal(animal)].  The keyword arguments after [born_at] are
    the fields of the record beyond [id], [name], [friends] and [born_at]:
    its [extra]. *)
Definition transform_animal (animal : AnimalDetail.t)
  : result TransformedAnimal.t :=
  let attempt :=
    let transformed_friends :=
      match AnimalDetail.friends animal with
      | FriendsList l => l
      | FriendsStr s => transform_friends (Some s)
      end in
    transformed_born_at <-
      match AnimalDetail.born_at animal with
      | Some (BornDatetime d) => Ok (Some (Datetime.isoformat d))
      | v => transform_born_at v
      end ;;
    Ok {| TransformedAnimal.id := AnimalDetail.id animal;
          TransformedAnimal.name := AnimalDetail.name animal;
          TransformedAnimal.friends := transformed_friends;
          TransformedAnimal.born_at := transformed_born_at;
          TransformedAnimal.extra := AnimalDetail.extra animal |} in
  match attempt with
  | Ok transformed => Ok transformed
  | Raise (TransformationError m i f) => Raise (TransformationError m i f)
  | Raise e =>
      Raise (TransformationError
               ("Unexpected error transforming animal "
                ++ str_of_int (AnimalDetail.id animal) ++ ": " ++ exn_str e)
               (Some (AnimalDetail.id animal)) None)
  end.

(** One turn of the loop of [transform_animals_batch], on the pair of
    [transformed_animals] and [errors]. *)
Definition transform_step
    (acc : list TransformedAnimal.t * list string) (animal : AnimalDetail.t)
  : list TransformedAnimal.t * list string :=
  let '(transformed_animals, errors) := acc in
  match transform_animal animal with
  | Ok transformed => (transformed_animals ++ [transformed], errors)
  | Raise (TransformationError m _ _) =>
      let error_msg :=
        ("Failed to transform animal " ++ str_of_int (AnimalDetail.id animal)
         ++ ": " ++ m)%string in
      (transformed_animals, errors ++ [error_msg])
  | Raise e =>
      let error_msg :=
        ("Unexpected error transforming animal "
         ++ str_of_int (AnimalDetail.id animal) ++ ": " ++ exn_str e)%string in
      (transformed_animals, errors ++ [error_msg])
  end.

(** The two lists when the loop of [transform_animals_batch] ends. *)
Definition transform_animals_batch_loop (animals : list AnimalDetail.t)
  : list TransformedAnimal.t * list string :=
  fold_left transform_step animals ([], []).

Definition transform_animals_batch (animals : list AnimalDetail.t)
  : list TransformedAnimal.t :=
  fst (transform_animals_batch_loop animals).

End with_parser.

End transformers.

(** ** Python's [range] and slices *)

(** [range(start, stop, step)] as the list of its values. *)
Definition py_range (start stop step : Z) : result (list Z) :=
  if step =? 0 then Raise (ValueError "range() arg 3 must not be zero")
  else
    let '(lo, hi, width) :=
      if 0 <? step then (start, stop, step) else (stop, start, - step) in
    let n := if hi <=? lo then 0 else (hi - lo - 1) / width + 1 in
    Ok (map (fun k => start + Z.of_nat k * step) (seq 0 (Z.to_nat n))).

(** The position a slice bound [k] stands for in a list of [len] items. *)
Definition slice_bound (len k : Z) : Z :=
  if k <? 0 then Z.max 0 (k + len) else Z.min k len.

(** [l[i:j]]. *)
Definition py_slice {A} (l : list A) (i j : Z) : list A :=
  let len := Z.of_nat (List.length l) in
  let a := slice_bound len i in
  let b := slice_bound len j in
  firstn (Z.to_nat (b - a)) (skipn (Z.to_nat a) l).

(** ** api_client.py *)

Module api_client.

Inductive http_method := GET | POST.

(** The arguments of [session.request]: the method, the path after the base
    URL, the query parameters and the JSON body. *)
Record request := {
  method : http_method;
  url : string;
  params : list (string * Z);
  json : option (list TransformedAnimal.t)
}.

(** What [response.json()] holds, as far as the models tell it apart: not
    JSON at all ([json()] raises a [ValueError]); a JSON value that is not an
    object (unpacking it into keyword arguments raises a [TypeError]); an object with
    the fields of a page, [None] for a missing [page] or [total_pages]; an
    object with the fields of a detail; an object that is no detail and whose
    [page] or [total_pages] cannot be compared with a number, a string say,
    and is the first that [check_pagination] compares and does not find
    below 1 (the comparison [page < 1] raises a [TypeError]); any other
    object (the model raises a validation error, a [ValueError]).  The texts
    of the errors that [json] and the models raise stand for the texts of
    these libraries; the properties below depend on their classes only. *)
Inductive body :=
| NotJSON
| NotAMapping
| OtherObject
| IllTypedPage
| PageObject (page total_pages : option Z) (items : list AnimalSummary.t)
| DetailObject (id : Z) (name : string)
    (friends : AnimalDetail.friends_input)
    (born_at : AnimalDetail.born_at_input) (extra : list (string * pyobj)).

Record response := {
  status_code : Z;
  text : string;
  data : body
}.

(** What one call of [session.request] comes to: a response, or one of the
    exceptions of [requests] the client tells apart. *)
Inductive outcome :=
| Responded (r : response)
| Timeout
| ConnectionError (message : string)
| RequestException (message : string).

(** The server and the transport below the client: the outcome of a request,
    given the requests sent before it, oldest first. *)
Definition server := list request -> request -> outcome.

(** A call on the client: from the requests sent so far to a result and the
    requests sent when it ends. *)
Definition call (A : Type) := list request -> result A * list request.

(** [response.raise_for_status()]. *)
Definition raise_for_status (r : response) : result unit :=
  if (400 <=? status_code r) && (status_code r <? 600) then
    Raise (HTTPError
             (PyStr.str_of_int (status_code r) ++ " Error")
             (status_code r) (text r))
  else Ok tt.

Definition in_codes (code : Z) (codes : list Z) : bool :=
  existsb (Z.eqb code) codes.

(** The [PaginatedResponse] built from the keys of [response.json()].  The
    [TypeError] of [check_pagination] on a [page] that is no number is none
    of the errors the validator turns into a validation error. *)
Definition parse_page (r : response) : result PaginatedResponse.t :=
  match data r with
  | NotJSON => Raise (ValueError "Expecting value")
  | NotAMapping => Raise (TypeError "argument after ** must be a mapping")
  | IllTypedPage =>
      Raise (TypeError
               "'<' not supported between instances of 'str' and 'int'")
  | PageObject page total_pages items =>
      _ <- PaginatedResponse.check_pagination page total_pages ;;
      match page, total_pages with
      | Some p, Some tp =>
          Ok {| PaginatedResponse.page := p;
                PaginatedResponse.total_pages := tp;
                PaginatedResponse.items := items |}
      | _, _ => Raise (ValueError "Field required")
      end
  | OtherObject | DetailObject _ _ _ _ _ =>
      Raise (ValueError "validation error for PaginatedResponse")
  end.

(** The [AnimalDetail] built from the keys of [response.json()]. *)
Definition parse_detail (r : response) : result AnimalDetail.t :=
  match data r with
  | NotJSON => Raise (ValueError "Expecting value")
  | NotAMapping => Raise (TypeError "argument after ** must be a mapping")
  | DetailObject id name friends born_at extra =>
      Ok (AnimalDetail.make id name friends born_at extra)
  | OtherObject | IllTypedPage | PageObject _ _ _ =>
      Raise (ValueError "validation error for AnimalDetail")
  end.

Section client.

Variable cfg : config.t.
Variable base_url : string.
Variable srv : server.

(** The body of [_make_request]: one request and the reading of its
    outcome. *)
Definition make_request_body (req : request) : call response :=
  fun sent =>
    let full_url := (base_url ++ url req)%string in
    let answer := srv sent req in
    let sent := sent ++ [req] in
    match answer with
    | Responded response =>
        if in_codes (status_code response) config.RETRY_STATUS_CODES then
          (Raise (APIError
                    ("HTTP " ++ PyStr.str_of_int (status_code response)
                     ++ " error")
                    (Some (status_code response)) (Some (text response))),
           sent)
        else
          match raise_for_status response with
          | Ok _ => (Ok response, sent)
          | Raise (HTTPError m code body_text) =>
              if negb (in_codes code config.RETRY_STATUS_CODES) then
                (Raise (APIError
                          ("HTTP " ++ PyStr.str_of_int code ++ " error")
                          (Some code) (Some body_text)),
                 sent)
              else (Raise (HTTPError m code body_text), sent)
          | Raise e => (Raise e, sent)
          end
    | Timeout =>
        (Raise (APIError ("Request timeout for " ++ full_url) None None), sent)
    | ConnectionError m =>
        (Raise (APIError ("Connection error: " ++ m) None None), sent)
    | RequestException m =>
        (Raise (APIError ("Request error: " ++ m) None None), sent)
    end.

(** The decorator [retry] of tenacity with [reraise=True]: the call is made
    again after an exception of one of the two classes named, until an attempt
    returns or [more] further attempts are used up; the last exception is
    raised as it is. *)
Fixpoint retry {A} (more : nat) (attempt : call A) : call A :=
  fun sent =>
    match attempt sent with
    | (Ok a, sent) => (Ok a, sent)
    | (Raise e, sent) =>
        if is_RequestException e || is_APIError e then
          match more with
          | O => (Raise e, sent)
          | S more => retry more attempt sent
          end
        else (Raise e, sent)
    end.

(** The attempts [stop_after_attempt(config.MAX_RETRIES)] allows after the
    first one: the first attempt is always made. *)
Definition further_attempts : nat := Z.to_nat (config.MAX_RETRIES cfg) - 1.

Definition _make_request (req : request) : call response :=
  retry further_attempts (make_request_body req).

Definition list_request (page page_size : Z) : request :=
  {| method := GET; url := config.ANIMALS_LIST_ENDPOINT;
     params := [("page", page); ("per_page", page_size)]; json := None |}.

Definition detail_request (animal_id : Z) : request :=
  {| method := GET; url := config.ANIMAL_DETAIL_ENDPOINT animal_id;
     params := []; json := None |}.

Definition home_request (animals : list TransformedAnimal.t) : request :=
  {| method := POST; url := config.HOME_ENDPOINT;
     params := []; json := Some animals |}.

(** [except (ValueError, KeyError) as e: raise APIError(prefix + str(e))]. *)
Definition invalid_format {A} (prefix : string) (r : result A) : result A :=
  match r with
  | Raise (ValueError m) => Raise (APIError (prefix ++ m) None None)
  | r => r
  end.

Definition get_animals_page (page page_size : Z) : call PaginatedResponse.t :=
  fun sent =>
    let '(r, sent) := _make_request (list_request page page_size) sent in
    (invalid_format "Invalid response format: "
       (response <- r ;; parse_page response),
     sent).

(** The loop of [get_all_animals], [fuel] turns of it at most: [None] when
    the loop has not ended by then. *)
Fixpoint get_all_animals_loop (fuel : nat) (current_page : Z)
    (all_animals : list AnimalSummary.t) (sent : list request)
  : option (result (list AnimalSummary.t) * list request) :=
  match fuel with
  | O => None
  | S fuel =>
      match get_animals_page current_page (config.DEFAULT_PAGE_SIZE cfg) sent with
      | (Ok page_response, sent) =>
          let all_animals :=
            all_animals ++ PaginatedResponse.items page_response in
          if PaginatedResponse.total_pages page_response <=? current_page
          then Some (Ok all_animals, sent)
          else get_all_animals_loop fuel (current_page + 1) all_animals sent
      | (Raise e, sent) => Some (Raise e, sent)
      end
  end.

Definition get_all_animals (fuel : nat) (sent : list request)
  : option (result (list AnimalSummary.t) * list request) :=
  get_all_animals_loop fuel (config.START_PAGE cfg) [] sent.

Definition get_animal_detail (animal_id : Z) : call AnimalDetail.t :=
  fun sent =>
    let '(r, sent) := _make_request (detail_request animal_id) sent in
    (invalid_format
       ("Invalid response format for animal " ++ PyStr.str_of_int animal_id
        ++ ": ")
       (response <- r ;; parse_detail response),
     sent).

Definition submit_animals_batch (animals : list TransformedAnimal.t)
  : call bool :=
  fun sent =>
    if 100 <? Z.of_nat (List.length animals) then
      (Raise (ValueError
                ("Batch size " ++ PyStr.str_of_int (Z.of_nat (List.length animals))
                 ++ " exceeds maximum of 100")),
       sent)
    else
      match _make_request (home_request animals) sent with
      | (Ok response, sent) => (Ok true, sent)
      | (Raise e, sent) => (Raise e, sent)
      end.

(** The loop of [get_all_animal_details], on [animal_details]: an
    [APIError] is logged and raised again, and any other exception passes as
    well. *)
Fixpoint get_all_animal_details_loop (animal_summaries : list AnimalSummary.t)
    (animal_details : list AnimalDetail.t) : call (list AnimalDetail.t) :=
  fun sent =>
    match animal_summaries with
    | [] => (Ok animal_details, sent)
    | animal_summary :: rest =>
        match get_animal_detail (AnimalSummary.id animal_summary) sent with
        | (Ok detail, sent) =>
            get_all_animal_details_loop rest (animal_details ++ [detail]) sent
        | (Raise e, sent) => (Raise e, sent)
        end
    end.

Definition get_all_animal_details (animal_summaries : list AnimalSummary.t)
  : call (list AnimalDetail.t) :=
  get_all_animal_details_loop animal_summaries [].

End client.

End api_client.

(** ** etl_processor.py *)

(** The counters of [ETLStats]; the two times of the run and the figures
    derived from them are floating point values and are left out. *)
Module ETLStats.

Record t := {
  total_animals_found : Z;
  total_animals_detailed : Z;
  total_animals_transformed : Z;
  total_animals_submitted : Z;
  total_batches_submitted : Z;
  failed_details : Z;
  failed_transformations : Z;
  failed_submissions : Z
}.

(** [ETLStats()]. *)
Definition initial : t :=
  {| total_animals_found := 0; total_animals_detailed := 0;
     total_animals_transformed := 0; total_animals_submitted := 0;
     total_batches_submitted := 0; failed_details := 0;
     failed_transformations := 0; failed_submissions := 0 |}.

Definition with_found (s : t) (found : Z) : t :=
  {| total_animals_found := found;
     total_animals_detailed := total_animals_detailed s;
     total_animals_transformed := total_animals_transformed s;
     total_animals_submitted := total_animals_submitted s;
     total_batches_submitted := total_batches_submitted s;
     failed_details := failed_details s;
     failed_transformations := failed_transformations s;
     failed_submissions := failed_submissions s |}.

Definition with_detailed (s : t) (detailed failed : Z) : t :=
  {| total_animals_found := total_animals_found s;
     total_animals_detailed := detailed;
     total_animals_transformed := total_animals_transformed s;
     total_animals_submitted := total_animals_submitted s;
     total_batches_submitted := total_batches_submitted s;
     failed_details := failed;
     failed_transformations := failed_transformations s;
     failed_submissions := failed_submissions s |}.

Definition with_transformed (s : t) (transformed failed : Z) : t :=
  {| total_animals_found := total_animals_found s;
     total_animals_detailed := total_animals_detailed s;
     total_animals_transformed := transformed;
     total_animals_submitted := total_animals_submitted s;
     total_batches_submitted := total_batches_submitted s;
     failed_details := failed_details s;
     failed_transformations := failed;
     failed_submissions := failed_submissions s |}.

Definition with_submitted (s : t) (submitted batches failed : Z) : t :=
  {| total_animals_found := total_animals_found s;
     total_animals_detailed := total_animals_detailed s;
     total_animals_transformed := total_animals_transformed s;
     total_animals_submitted := submitted;
     total_batches_submitted := batches;
     failed_details := failed_details s;
     failed_transformations := failed_transformations s;
     failed_submissions := failed |}.

End ETLStats.

Module etl_processor.
Import api_client.

Definition len {A} (l : list A) : Z := Z.of_nat (List.length l).

Section processor.

Variable cfg : config.t.
Variable base_url : string.
Variable srv : server.
Variable parse : string -> result Datetime.datetime.

(** [self.batch_size]. *)
Variable batch_size : Z.

(** A phase of the processor: from [self.stats] and the requests sent so
    far to a result and their new values. *)
Definition phase (A : Type) :=
  ETLStats.t -> list request -> result A * ETLStats.t * list request.

Definition extract_animals (fuel : nat) (stats : ETLStats.t)
    (sent : list request)
  : option (result (list AnimalSummary.t) * ETLStats.t * list request) :=
  match get_all_animals cfg base_url srv fuel sent with
  | None => None
  | Some (Ok animals, sent) =>
      Some (Ok animals, ETLStats.with_found stats (len animals), sent)
  | Some (Raise e, sent) => Some (Raise e, stats, sent)
  end.

(** The loop of [extract_animal_details], on [animal_details] and
    [failed_count]. *)
Fixpoint extract_animal_details_loop (animal_summaries : list AnimalSummary.t)
    (animal_details : list AnimalDetail.t) (failed_count : Z)
    (sent : list request)
  : result (list AnimalDetail.t * Z) * list request :=
  match animal_summaries with
  | [] => (Ok (animal_details, failed_count), sent)
  | animal_summary :: rest =>
      match
        get_animal_detail cfg base_url srv (AnimalSummary.id animal_summary) sent
      with
      | (Ok detail, sent) =>
          extract_animal_details_loop rest (animal_details ++ [detail])
            failed_count sent
      | (Raise e, sent) =>
          if is_APIError e then
            extract_animal_details_loop rest animal_details (failed_count + 1)
              sent
          else (Raise e, sent)
      end
  end.

Definition extract_animal_details (animal_summaries : list AnimalSummary.t)
  : phase (list AnimalDetail.t) :=
  fun stats sent =>
    match extract_animal_details_loop animal_summaries [] 0 sent with
    | (Ok (animal_details, failed_count), sent) =>
        (Ok animal_details,
         ETLStats.with_detailed stats (len animal_details) failed_count, sent)
    | (Raise e, sent) => (Raise e, stats, sent)
    end.

Definition transform_animals (animal_details : list AnimalDetail.t)
    (stats : ETLStats.t) : list TransformedAnimal.t * ETLStats.t :=
  let initial_count := len animal_details in
  let transformed_animals :=
    transformers.transform_animals_batch parse animal_details in
  (transformed_animals,
   ETLStats.with_transformed stats (len transformed_animals)
     (initial_count - len transformed_animals)).

(** The loop of [load_animals] over the values [i] of the range, on
    [total_submitted], [failed_batches] and [batch_number]. *)
Fixpoint load_animals_loop (starts : list Z)
    (transformed_animals : list TransformedAnimal.t)
    (total_submitted failed_batches batch_number : Z) (sent : list request)
  : result (Z * Z * Z) * list request :=
  match starts with
  | [] => (Ok (total_submitted, failed_batches, batch_number), sent)
  | i :: rest =>
      let batch_number := batch_number + 1 in
      let batch := py_slice transformed_animals i (i + batch_size) in
      match submit_animals_batch cfg base_url srv batch sent with
      | (Ok success, sent) =>
          if success then
            load_animals_loop rest transformed_animals
              (total_submitted + len batch) failed_batches batch_number sent
          else
            load_animals_loop rest transformed_animals total_submitted
              (failed_batches + 1) batch_number sent
      | (Raise e, sent) =>
          if is_APIError e || is_ValueError e then
            load_animals_loop rest transformed_animals total_submitted
              (failed_batches + 1) batch_number sent
          else (Raise e, sent)
      end
  end.

Definition load_animals (transformed_animals : list TransformedAnimal.t)
  : phase bool :=
  fun stats sent =>
    match py_range 0 (len transformed_animals) batch_size with
    | Raise e => (Raise e, stats, sent)
    | Ok starts =>
        match load_animals_loop starts transformed_animals 0 0 0 sent with
        | (Ok (total_submitted, failed_batches, batch_number), sent) =>
            (Ok (failed_batches =? 0),
             ETLStats.with_submitted stats total_submitted
               (batch_number - failed_batches) failed_batches,
             sent)
        | (Raise e, sent) => (Raise e, stats, sent)
        end
    end.

(** [run()], the extraction given [fuel] turns of its loop: [None] when the
    extraction has not ended by then.  An exception of any phase is caught by
    the [except Exception] of [run], which returns [False]. *)
Definition run (fuel : nat) (stats : ETLStats.t) (sent : list request)
  : option (bool * ETLStats.t * list request) :=
  match extract_animals fuel stats sent with
  | None => None
  | Some (Raise e, stats, sent) => Some (false, stats, sent)
  | Some (Ok animal_summaries, stats, sent) =>
      match animal_summaries with
      | [] => Some (true, stats, sent)
      | _ :: _ =>
          match extract_animal_details animal_summaries stats sent with
          | (Raise e, stats, sent) => Some (false, stats, sent)
          | (Ok animal_details, stats, sent) =>
              match animal_details with
              | [] => Some (false, stats, sent)
              | _ :: _ =>
                  let '(transformed_animals, stats) :=
                    transform_animals animal_details stats in
                  match transformed_animals with
                  | [] => Some (false, stats, sent)
                  | _ :: _ =>
                      match load_animals transformed_animals stats sent with
                      | (Ok load_success, stats, sent) =>
                          Some (load_success, stats, sent)
                      | (Raise e, stats, sent) => Some (false, stats, sent)
                      end
                  end
              end
          end
      end
  end.

End processor.

End etl_processor.

(** ** main.py *)

Module main.
Import api_client etl_processor.

(** Truth value of an [Optional[float]]: [None] and zero are false.  A time
    is held in microseconds; the code reads only whether it is set. *)
Definition time_truthy (t : option Z) : bool :=
  match t with
  | Some v => negb (v =? 0)
  | None => false
  end.

(** [ETLStats.duration_seconds]. *)
Definition duration_seconds (start_time end_time : option Z) : option Z :=
  match start_time, end_time with
  | Some s, Some e =>
      if time_truthy start_time && time_truthy end_time then Some (e - s)
      else None
  | _, _ => None
  end.

(** [_log_final_stats()]: its second message formats [duration_seconds] with
    [:.2f], which raises a [TypeError] for [None]; the other messages format
    integers and a float. *)
Definition _log_final_stats (start_time end_time : option Z) : result unit :=
  match duration_seconds start_time end_time with
  | Some _ => Ok tt
  | None =>
      Raise (TypeError
               "unsupported format string passed to NoneType.__format__")
  end.

Section dry_run.

Variable cfg : config.t.
Variable base_url : string.
Variable srv : server.
Variable parse : string -> result Datetime.datetime.

(** [run_dry_run(processor)], the extraction given [fuel] turns of its loop.
    [start_time] and [end_time] are those of [processor.stats], which
    [run_dry_run] does not set.  An exception of any step is caught by its
    [except Exception], which returns [False]. *)
Definition run_dry_run (fuel : nat) (start_time end_time : option Z)
    (stats : ETLStats.t) (sent : list request)
  : option (bool * ETLStats.t * list request) :=
  match extract_animals cfg base_url srv fuel stats sent with
  | None => None
  | Some (Raise e, stats, sent) => Some (false, stats, sent)
  | Some (Ok animal_summaries, stats, sent) =>
      match animal_summaries with
      | [] => Some (true, stats, sent)
      | _ :: _ =>
          match
            extract_animal_details cfg base_url srv animal_summaries stats sent
          with
          | (Raise e, stats, sent) => Some (false, stats, sent)
          | (Ok animal_details, stats, sent) =>
              let '(transformed, stats) :=
                transform_animals parse animal_details stats in
              match _log_final_stats start_time end_time with
              | Ok _ => Some (true, stats, sent)
              | Raise e => Some (false, stats, sent)
              end
          end
      end
  end.

End dry_run.

End main.

(** * Notions used to state the properties *)

Section string_notions.
Import PyStr.

(** The last character of a string, if any, satisfies [P]. *)
Fixpoint last_char (P : ascii -> Prop) (s : string) : Prop :=
  match s with
  | EmptyString => True
  | String c EmptyString => P c
  | String _ s' => last_char P s'
  end.

(** No entry of a list is blank. *)
Definition no_blank (l : list string) : Prop :=
  Forall (fun p => blank p = false) l.

End string_notions.

Section transformer_notions.
Import transformers.

Variable parse : string -> result Datetime.datetime.

(** The records of [animals] that [transform_animal] transforms, transformed,
    in the order of [animals]. *)
Definition transformed_in_order (animals : list AnimalDetail.t)
  : list TransformedAnimal.t :=
  flat_map
    (fun a => match transform_animal parse a with
              | Ok t => [t]
              | Raise _ => []
              end)
    animals.

(** The records of [animals] on which [transform_animal] raises. *)
Definition failing (animals : list AnimalDetail.t) : list AnimalDetail.t :=
  filter (fun a => negb (is_Ok (transform_animal parse a))) animals.

End transformer_notions.

Section client_notions.
Import api_client.

Variable cfg : config.t.
Variable base_url : string.
Variable srv : server.

(** A status the client takes for a success: not one of
    [RETRY_STATUS_CODES], and below 400 or from 600 on. *)
Definition success_status (code : Z) : bool :=
  negb (in_codes code config.RETRY_STATUS_CODES)
  && negb ((400 <=? code) && (code <? 600)).

(** An error status outside [RETRY_STATUS_CODES]. *)
Definition non_retryable_status (code : Z) : bool :=
  (400 <=? code) && (code <? 600)
  && negb (in_codes code config.RETRY_STATUS_CODES).

(** The records a request submits: the body of a POST. *)
Definition payload (req : request) : list (list TransformedAnimal.t) :=
  match method req, json req with
  | POST, Some animals => [animals]
  | _, _ => []
  end.

(** The server answers [req], sent after [hist], with a success. *)
Definition answered_ok (hist : list request) (req : request) : bool :=
  match srv hist req with
  | Responded r => success_status (status_code r)
  | _ => false
  end.

(** The batches submitted with success among the requests [new], sent
    after [hist]: the bodies of the POST requests that the server answered
    with a success, in the order of the requests. *)
Fixpoint successful_posts (hist new : list request)
  : list (list TransformedAnimal.t) :=
  match new with
  | [] => []
  | req :: rest =>
      (if answered_ok hist req then payload req else [])
      ++ successful_posts (hist ++ [req]) rest
  end.

(** A call that sends GET requests only. *)
Definition only_gets (sent sent' : list request) : Prop :=
  exists new, sent' = sent ++ new /\ successful_posts sent new = [].

(** The server serves the listing [pages], one page of items per entry: the
    request for page [k + 1] is answered, whatever was sent before, by a
    success status and a page object that reports as many pages as [pages]
    has and holds the items of entry [k]. *)
Definition serves_listing (page_size : Z) (pages : list (list AnimalSummary.t))
  : Prop :=
  forall hist k, (k < List.length pages)%nat ->
    exists r p,
      srv hist (list_request (Z.of_nat (S k)) page_size) = Responded r
      /\ success_status (status_code r) = true
      /\ 1 <= p
      /\ data r = PageObject (Some p) (Some (Z.of_nat (List.length pages)))
                    (nth k pages []).

(** The requests for the pages [first + 1] to [first + count]. *)
Definition page_requests (page_size : Z) (first count : nat) : list request :=
  map (fun k => list_request (Z.of_nat (S k)) page_size) (seq first count).

End client_notions.

Section batch_notions.

Context {A : Type}.

(** The pieces of [l] of [b] items each, [c] of them, from the start. *)
Definition pieces (l : list A) (b c : nat) : list (list A) :=
  map (fun k => firstn b (skipn (k * b) l)) (seq 0 c).

(** The number of values of [range(0, n, width)]. *)
Definition range_count (n width : Z) : nat :=
  Z.to_nat (if n <=? 0 then 0 else (n - 1) / width + 1).

(** The batches [load_animals] forms: the slices at the values of its
    range. *)
Definition load_batches (batch_size : Z) (l : list A) : result (list (list A)) :=
  starts <- py_range 0 (Z.of_nat (List.length l)) batch_size ;;
  Ok (map (fun i => py_slice l i (i + batch_size)) starts).

End batch_notions.

Section loading_notions.
Import api_client etl_processor.

Variable cfg : config.t.
Variable base_url : string.
Variable srv : server.

(** The records of the batches together. *)
Definition total_len (batches : list (list TransformedAnimal.t)) : Z :=
  fold_right (fun b n => len b + n) 0 batches.

(** The batches whose submission returned, [oks] telling for each batch
    whether it did. *)
Fixpoint succeeded (batches : list (list TransformedAnimal.t))
    (oks : list bool) : list (list TransformedAnimal.t) :=
  match batches, oks with
  | b :: batches, ok :: oks =>
      (if ok then [b] else []) ++ succeeded batches oks
  | _, _ => []
  end.

Definition count_failed (oks : list bool) : Z := len (filter negb oks).

(** The batches submitted one after the other: from the requests sent
    before the first to those sent after the last, with the flag of each
    batch. *)
Inductive loaded
  : list request -> list (list TransformedAnimal.t) -> list bool ->
    list request -> Prop :=
| loaded_nil sent : loaded sent [] [] sent
| loaded_cons sent batch batches r sent1 oks sent2 :
    submit_animals_batch cfg base_url srv batch sent = (r, sent1) ->
    loaded sent1 batches oks sent2 ->
    loaded sent (batch :: batches) (is_Ok r :: oks) sent2.

(** The requests made for the batches, in their order: none for a batch of
    more than 100 records, the POST of the batch, once or more, for any
    other. *)
Inductive posts_for : list (list TransformedAnimal.t) -> list request -> Prop :=
| posts_nil : posts_for [] []
| posts_over batch batches new :
    100 < len batch -> posts_for batches new ->
    posts_for (batch :: batches) new
| posts_within batch batches n new :
    len batch <= 100 -> posts_for batches new ->
    posts_for (batch :: batches) (repeat (home_request batch) (S n) ++ new).

End loading_notions.

(** The verdict of a run in the words of C2: failure when the extraction
    fails; success when it finds nothing; failure when nothing is detailed or
    nothing is transformed; otherwise success exactly when every batch
    submitted has succeeded. *)
Definition verdict_as_claimed (extraction_failed : bool)
    (found detailed transformed : Z) (batches_ok : list bool) : bool :=
  if extraction_failed then false
  else if found =? 0 then true
  else if detailed =? 0 then false
  else if transformed =? 0 then false
  else forallb (fun ok => ok) batches_ok.


Section further_notions.
Import api_client.

Variable parse : string -> result Datetime.datetime.
Variable srv : server.

(** The parser is not code of the repository: it raises no
    [TransformationError]. *)
Definition foreign_parser : Prop :=
  forall s, match parse s with
            | Raise (TransformationError _ _ _) => False
            | _ => True
            end.

(** The pages the server reports are [bound] at most. *)
Definition pages_bounded (bound : Z) : Prop :=
  forall hist req r p tp items,
    srv hist req = Responded r -> data r = PageObject p (Some tp) items ->
    tp <= bound.

End further_notions.

(** [s] ends with [t]. *)
Definition has_suffix (t s : string) : Prop :=
  exists p, s = (p ++ t)%string.

(** The requests made for the details of the summaries, in their order: the
    GET of the detail of each, once or more. *)
Inductive detail_gets
  : list AnimalSummary.t -> list api_client.request -> Prop :=
| detail_gets_nil : detail_gets [] []
| detail_gets_cons s rest n new :
    detail_gets rest new ->
    detail_gets (s :: rest)
      (repeat (api_client.detail_request (AnimalSummary.id s)) (S n) ++ new).

(** * Sample inputs *)

(** A parser to run the functions with: it reads the one date
    ["2020-01-01"] and rejects every other string, the way
    [dateutil.parser.parse] rejects a string it cannot read. *)
Definition sample_parse (s : string) : result Datetime.datetime :=
  if (s =? "2020-01-01")%string
  then Ok (Datetime.mk_datetime 2020 1 1 0 0 0 0 None)
  else Raise (ValueError ("Unknown string format: " ++ s)).

(** A detail whose [born_at] is a [datetime] with the offset +02:00, and one
    whose [born_at] is a [datetime] without time zone. *)
Definition noon_plus_two : Datetime.datetime :=
  Datetime.mk_datetime 2020 1 1 12 0 0 0 (Some 7200).

Definition noon_naive : Datetime.datetime :=
  Datetime.mk_datetime 2020 1 1 12 0 0 0 None.

Definition detail_born (d : Datetime.datetime) : AnimalDetail.t :=
  AnimalDetail.make 1 "Rex" (AnimalDetail.FriendsInStr "Ann")
    (AnimalDetail.BornInDatetime d) [].

(** The [born_at] of the record a call of [transform_animal] returns. *)
Definition born_at_of (r : result TransformedAnimal.t)
  : result (option string) :=
  t <- r ;; Ok (TransformedAnimal.born_at t).

(** A detail built from the list [Ann], [" "]: the validator keeps both
    entries, neither being empty. *)
Definition detail_with_blank_friend : AnimalDetail.t :=
  AnimalDetail.make 7 "Rex"
    (AnimalDetail.FriendsInList [obj_of_str "Ann"; obj_of_str " "])
    AnimalDetail.BornInNone [].

(** A server that answers every request with the status 404. *)
Definition not_found_server : api_client.server :=
  fun _ _ =>
    api_client.Responded
      {| api_client.status_code := 404; api_client.text := "Not Found";
         api_client.data := api_client.NotJSON |}.


Module samples.
Import api_client.

Definition base_url : string := "http://localhost:3123".

Definition summary (id : Z) : AnimalSummary.t :=
  {| AnimalSummary.id := id; AnimalSummary.name := "animal";
     AnimalSummary.extra := [] |}.

(** A listing of two pages, of three and of two summaries. *)
Definition two_pages : list (list AnimalSummary.t) :=
  [[summary 1; summary 2; summary 3]; [summary 4; summary 5]].

Definition ok_response (d : body) : outcome :=
  Responded {| status_code := 200; text := "OK"; data := d |}.

(** A server that serves the listing [pages], answers every detail request
    with a detail, and accepts every submission. *)
Definition listing_server (pages : list (list AnimalSummary.t)) : server :=
  fun _ req =>
    match method req with
    | POST => ok_response OtherObject
    | GET =>
        if (url req =? config.ANIMALS_LIST_ENDPOINT)%string then
          match params req with
          | (_, page) :: _ =>
              if (1 <=? page) && (page <=? Z.of_nat (List.length pages)) then
                ok_response
                  (PageObject (Some page) (Some (Z.of_nat (List.length pages)))
                     (nth (Z.to_nat (page - 1)) pages []))
              else
                Responded {| status_code := 404; text := "Not Found";
                             data := NotJSON |}
          | [] => Responded {| status_code := 404; text := "Not Found";
                               data := NotJSON |}
          end
        else
          ok_response
            (DetailObject 0 "animal" (AnimalDetail.FriendsInStr "Ann, Bob")
               AnimalDetail.BornInNone [])
    end.


Definition record (id : Z) : TransformedAnimal.t :=
  {| TransformedAnimal.id := id; TransformedAnimal.name := "animal";
     TransformedAnimal.friends := ["Ann"; "Bob"];
     TransformedAnimal.born_at := None; TransformedAnimal.extra := [] |}.

End samples.

(** * Properties *)


(** ** Strings *)

Section strings.
Import PyStr.

Lemma split_nonempty sep s : split sep s <> [].
Proof.
  destruct s as [|c s]; simpl; [discriminate|].
  destruct (Ascii.eqb c sep); [discriminate|].
  destruct (split sep s); discriminate.
Qed.

Lemma join_cons sep p ps :
  ps <> [] -> join sep (p :: ps) = (p ++ String sep (join sep ps))%string.
Proof. destruct ps; [congruence|reflexivity]. Qed.

(** Splitting loses nothing: the pieces joined by the separator are the
    string. *)
Lemma join_split sep s : join sep (split sep s) = s.
Proof.
  induction s as [|c s IH]; [reflexivity|].
  pose proof (split_nonempty sep s) as Hne.
  cbn [split].
  destruct (Ascii.eqb_spec c sep) as [->|Hc].
  - rewrite join_cons by assumption. now rewrite IH.
  - destruct (split sep s) as [|p ps]; [congruence|].
    destruct ps as [|q qs].
    + cbn in *. now subst.
    + rewrite join_cons by discriminate.
      rewrite join_cons in IH by discriminate.
      rewrite <- IH. reflexivity.
Qed.

(** No piece holds the separator. *)
Lemma split_no_sep sep s :
  Forall (fun p => occurs sep p = false) (split sep s).
Proof.
  induction s as [|c s IH]; simpl.
  - now constructor.
  - destruct (Ascii.eqb_spec c sep) as [->|Hc].
    + now constructor.
    + destruct (split sep s) as [|p ps].
      * constructor; [|constructor]. simpl.
        apply Ascii.eqb_neq in Hc. now rewrite Hc.
      * inversion IH; subst. constructor; [|assumption]. simpl.
        apply Ascii.eqb_neq in Hc. now rewrite Hc.
Qed.

Lemma rstrip_empty s : rstrip s = "" <-> all_space s = true.
Proof.
  induction s as [|c s IH]; simpl; [tauto|].
  destruct (rstrip s) eqn:E.
  - destruct (isspace c); simpl.
    + tauto.
    + split; discriminate.
  - split; [discriminate|].
    intros H. apply andb_true_iff in H as [_ H].
    apply IH in H. discriminate.
Qed.

Lemma lstrip_all_space s : all_space (lstrip s) = true <-> all_space s = true.
Proof.
  induction s as [|c s IH]; simpl; [tauto|].
  destruct (isspace c) eqn:E; simpl.
  - exact IH.
  - rewrite E. simpl. tauto.
Qed.

(** A string is blank when all its characters are white space. *)
Lemma blank_all_space s : blank s = true <-> all_space s = true.
Proof.
  unfold blank, strip. rewrite String.eqb_eq, rstrip_empty.
  apply lstrip_all_space.
Qed.

(** What [lstrip] removes is white space, and what it leaves does not start
    with white space. *)
Lemma lstrip_spec s :
  exists l, s = (l ++ lstrip s)%string /\ all_space l = true
            /\ match lstrip s with
               | String c _ => isspace c = false
               | EmptyString => True
               end.
Proof.
  induction s as [|c s IH]; simpl.
  - exists "". auto.
  - destruct (isspace c) eqn:E.
    + destruct IH as (l & Hs & Hl & Hh).
      exists (String c l). simpl. rewrite E, Hl. repeat split; [congruence|assumption].
    + exists "". auto.
Qed.


Lemma rstrip_spec s :
  exists r, s = (rstrip s ++ r)%string /\ all_space r = true
            /\ last_char (fun c => isspace c = false) (rstrip s).
Proof.
  induction s as [|c s IH]; simpl.
  - exists "". auto.
  - destruct IH as (r & Hs & Hr & Hl).
    destruct (rstrip s) as [|d t] eqn:E.
    + simpl in Hs. subst r.
      destruct (isspace c) eqn:Ec.
      * exists (String c s). simpl. rewrite Ec, Hr. auto.
      * exists s. simpl. auto.
    + exists r. split; [|split; [assumption|exact Hl]].
      simpl. f_equal. exact Hs.
Qed.

(** [strip] removes white space at both ends and nothing else. *)
Lemma strip_spec s :
  exists l r,
    s = (l ++ strip s ++ r)%string /\ all_space l = true /\ all_space r = true
    /\ match strip s with
       | String c _ => isspace c = false
       | EmptyString => True
       end
    /\ last_char (fun c => isspace c = false) (strip s).
Proof.
  unfold strip.
  destruct (lstrip_spec s) as (l & Hs & Hl & Hh).
  destruct (rstrip_spec (lstrip s)) as (r & Ht & Hr & Hlast).
  exists l, r. repeat split; try assumption.
  - rewrite <- Ht. exact Hs.
  - destruct (lstrip s) as [|c t] eqn:E; simpl; [exact I|].
    simpl in Ht. destruct (rstrip t); [destruct (isspace c) eqn:Ec|]; auto.
Qed.

Lemma split_all_space sep s :
  isspace sep = false -> all_space s = true ->
  Forall (fun p => all_space p = true) (split sep s).
Proof.
  intros Hsep. induction s as [|c s IH]; simpl; intros H.
  - now constructor.
  - apply andb_true_iff in H as [Hc Hs].
    destruct (Ascii.eqb_spec c sep) as [->|_]; [congruence|].
    specialize (IH Hs).
    destruct (split sep s) as [|p ps].
    + constructor; [|constructor]. simpl. now rewrite Hc.
    + inversion IH; subst. constructor; [|assumption]. simpl. now rewrite Hc.
Qed.

Lemma truthy_strip_blank p : truthy (strip p) = negb (blank p).
Proof. reflexivity. Qed.

Lemma filter_truthy_blank pieces :
  Forall (fun p => all_space p = true) pieces ->
  filter truthy (map strip pieces) = [].
Proof.
  induction 1 as [|p ps Hp _ IH]; simpl; [reflexivity|].
  rewrite truthy_strip_blank.
  apply blank_all_space in Hp. now rewrite Hp.
Qed.


Lemma strip_strip s : strip (strip s) = strip s.
Proof.
  unfold strip.
  assert (Hl : forall t, match t with String c _ => isspace c = false | _ => True end -> lstrip t = t).
  { intros [|c t]; simpl; [reflexivity|]. now intros ->. }
  assert (Hr : forall t, rstrip (rstrip t) = rstrip t).
  { induction t as [|c t IH]; simpl; [reflexivity|].
    destruct (rstrip t) as [|d u] eqn:E.
    - destruct (isspace c) eqn:Ec; simpl; [reflexivity|]. now rewrite Ec.
    - change (rstrip (String c (String d u))) with
        (match rstrip (String d u) with
         | EmptyString => if isspace c then EmptyString else String c EmptyString
         | r => String c r end).
      rewrite IH. reflexivity. }
  destruct (strip_spec s) as (_ & _ & _ & _ & _ & Hh & _).
  unfold strip in Hh. rewrite (Hl _ Hh). apply Hr.
Qed.

End strings.

(** ** The record transformer *)

Section transformer.
Import PyStr transformers.


Lemma transform_friends_filter s :
  transform_friends (Some s)
  = filter (fun p => negb (p =? "")%string) (map strip (split "," s)).
Proof.
  unfold transform_friends.
  destruct (negb (truthy s) || (strip s =? "")%string) eqn:E; [|reflexivity].
  assert (Hb : all_space s = true).
  { apply orb_true_iff in E as [E|E].
    - unfold truthy in E. rewrite negb_involutive in E.
      apply String.eqb_eq in E. now subst.
    - now apply blank_all_space. }
  symmetry. apply (filter_truthy_blank (split "," s)).
  now apply split_all_space.
Qed.

Lemma transform_friends_no_blank o : no_blank (transform_friends o).
Proof.
  destruct o as [s|]; [|constructor].
  rewrite transform_friends_filter.
  induction (split "," s) as [|p ps IH]; simpl; [constructor|].
  destruct (strip p =? "")%string eqn:E; simpl; [exact IH|].
  constructor; [|exact IH].
  unfold blank. now rewrite strip_strip.
Qed.

(** C6.  [transform_friends] gives the empty list for [None], for the empty
    string and for a string of white space; for every string it gives the
    pieces between the commas, each stripped of the white space around it,
    the empty ones left out, in the order of the string; and
    ["a, b,,c"] gives [a], [b], [c]. *)
Theorem transform_friends_correct :
  transform_friends None = []
  /\ transform_friends (Some "") = []
  /\ (forall s, blank s = true -> transform_friends (Some s) = [])
  /\ (forall s,
        transform_friends (Some s)
        = filter (fun p => negb (p =? "")%string) (map strip (split "," s)))
  /\ transform_friends (Some "a, b,,c") = ["a"; "b"; "c"].
Proof.
  split; [reflexivity|]. split; [reflexivity|].
  split; [|split; [exact transform_friends_filter|reflexivity]].
  intros s Hs. unfold transform_friends.
  unfold blank in Hs. rewrite Hs. now rewrite orb_true_r.
Qed.


(** A [born_at] that is a [datetime] is written as it stands: [transform_animal]
    does not pass it to [transform_born_at]. *)
Lemma transform_animal_datetime parse animal d :
  AnimalDetail.born_at animal = Some (BornDatetime d) ->
  born_at_of (transform_animal parse animal) = Ok (Some (Datetime.isoformat d)).
Proof.
  intros H. unfold transform_animal. rewrite H. reflexivity.
Qed.

(** C1 (the code departs from the claim).  For a [born_at] of 12:00 at +02:00
    [transform_animal] gives the text with the offset +02:00, where
    [transform_born_at] gives 10:00 at +00:00; for a [born_at] of 12:00
    without time zone it gives the text without offset, where
    [transform_born_at] gives 12:00 at +00:00.  Both values are dates and
    times a [datetime] can hold. *)
Theorem transform_animal_datetime_not_utc :
  Datetime.valid noon_plus_two = true
  /\ Datetime.valid noon_naive = true
  /\ born_at_of (transform_animal sample_parse (detail_born noon_plus_two))
  = Ok (Some "2020-01-01T12:00:00+02:00")
  /\ transform_born_at sample_parse (Some (BornDatetime noon_plus_two))
     = Ok (Some "2020-01-01T10:00:00+00:00")
  /\ born_at_of (transform_animal sample_parse (detail_born noon_naive))
     = Ok (Some "2020-01-01T12:00:00")
  /\ transform_born_at sample_parse (Some (BornDatetime noon_naive))
     = Ok (Some "2020-01-01T12:00:00+00:00").
Proof. repeat split; vm_compute; reflexivity. Qed.

(** What [transform_animal] returns has the friends of the record: the list
    itself, or the string normalised. *)
Lemma transform_animal_friends_eq parse animal t :
  transform_animal parse animal = Ok t ->
  TransformedAnimal.friends t
  = match AnimalDetail.friends animal with
    | FriendsList l => l
    | FriendsStr s => transform_friends (Some s)
    end.
Proof.
  unfold transform_animal.
  destruct (match AnimalDetail.born_at animal with
            | Some (BornDatetime d) => Ok (Some (Datetime.isoformat d))
            | v => transform_born_at parse v
            end) as [b|e]; simpl.
  - intros [= <-]. reflexivity.
  - destruct e; discriminate.
Qed.


(** C5, as it is stated, fails: the friends of the record above are passed
    on as they are, and the second one is blank. *)
Lemma transform_animal_blank_friend :
  AnimalDetail.friends detail_with_blank_friend = FriendsList ["Ann"; " "]
  /\ (t <- transform_animal sample_parse detail_with_blank_friend ;;
      Ok (TransformedAnimal.friends t)) = Ok ["Ann"; " "]
  /\ blank " " = true.
Proof. repeat split. Qed.

(** C5, amended.  A record [transform_animal] returns has no blank friend
    when the friends of the detail are a string; when they are a list it has
    that list unchanged, so it has no blank friend exactly when the list has
    none.  The list the validator builds from strings has no empty entry. *)
Theorem transform_animal_friends parse animal t :
  transform_animal parse animal = Ok t ->
  match AnimalDetail.friends animal with
  | FriendsStr s =>
      TransformedAnimal.friends t = transform_friends (Some s)
      /\ no_blank (TransformedAnimal.friends t)
  | FriendsList l =>
      TransformedAnimal.friends t = l
      /\ (no_blank (TransformedAnimal.friends t) <-> no_blank l)
  end
  /\ forall items,
       AnimalDetail.validate_friends
         (AnimalDetail.FriendsInList (map obj_of_str items))
       = FriendsList (filter (fun s => negb (s =? "")%string) items).
Proof.
  intros H. apply transform_animal_friends_eq in H. split.
  - destruct (AnimalDetail.friends animal) as [s|l]; rewrite H.
    + split; [reflexivity|apply transform_friends_no_blank].
    + split; [reflexivity|tauto].
  - intros items. simpl. f_equal.
    induction items as [|i items IH]; simpl; [reflexivity|].
    unfold truthy at 1. destruct (negb (i =? "")%string); simpl; now rewrite IH.
Qed.

Lemma transform_animal_friends_witness :
  transform_animal sample_parse detail_with_blank_friend
  = Ok {| TransformedAnimal.id := 7; TransformedAnimal.name := "Rex";
          TransformedAnimal.friends := ["Ann"; " "];
          TransformedAnimal.born_at := None; TransformedAnimal.extra := [] |}
  /\ TransformedAnimal.friends
       {| TransformedAnimal.id := 7; TransformedAnimal.name := "Rex";
          TransformedAnimal.friends := ["Ann"; " "];
          TransformedAnimal.born_at := None; TransformedAnimal.extra := [] |}
     = ["Ann"; " "].
Proof.
  split; [reflexivity|].
  exact (proj1 (proj1 (transform_animal_friends sample_parse
                         detail_with_blank_friend _ eq_refl))).
Defined.

End transformer.

(** ** The batch transformer *)

Section batch.
Import PyStr transformers.

Variable parse : string -> result Datetime.datetime.


Lemma transform_step_spec acc a :
  transform_step parse acc a
  = (fst acc ++ transformed_in_order parse [a],
     snd acc ++ snd (transform_step parse ([], []) a))
  /\ List.length (snd (transform_step parse ([], []) a))
     = List.length (failing parse [a]).
Proof.
  destruct acc as [ta errs]. unfold transform_step, transformed_in_order, failing.
  simpl. destruct (transform_animal parse a) as [t|e]; simpl.
  - now rewrite app_nil_r.
  - destruct e; simpl; now rewrite app_nil_r.
Qed.

Lemma transform_loop_spec animals acc :
  exists errs,
    fold_left (transform_step parse) animals acc
    = (fst acc ++ transformed_in_order parse animals, snd acc ++ errs)
    /\ List.length errs = List.length (failing parse animals).
Proof.
  revert acc. induction animals as [|a animals IH]; intros acc.
  - exists []. simpl. destruct acc. now rewrite !app_nil_r.
  - simpl fold_left.
    destruct (transform_step_spec acc a) as [Hs Hl].
    destruct (IH (transform_step parse acc a)) as (errs & Hf & He).
    exists (snd (transform_step parse ([], []) a) ++ errs).
    rewrite Hf, Hs. cbn [fst snd]. split.
    + unfold transformed_in_order. cbn [flat_map].
      now rewrite app_nil_r, <- !app_assoc.
    + rewrite length_app, Hl, He. unfold failing. simpl.
      destruct (negb (is_Ok (transform_animal parse a))); simpl; lia.
Qed.

Lemma failing_count animals :
  (List.length (failing parse animals) + List.length (transformed_in_order parse animals)
   = List.length animals)%nat.
Proof.
  unfold failing, transformed_in_order.
  induction animals as [|a animals IH]; simpl; [reflexivity|].
  rewrite length_app.
  destruct (transform_animal parse a); simpl; lia.
Qed.



(** An unparseable [born_at] makes [transform_animal] raise the
    transformation error of the field. *)
Lemma transform_animal_unparseable animal s m :
  AnimalDetail.born_at animal = Some (BornStr s) ->
  blank s = false ->
  parse s = Raise (ValueError m) ->
  transform_animal parse animal
  = Raise (TransformationError
             ("Failed to parse born_at value '" ++ s ++ "': " ++ m)
             None (Some "born_at")).
Proof.
  intros Hb Hs Hp. unfold transform_animal, transform_born_at.
  rewrite Hb. unfold blank in Hs. rewrite Hs, Hp. reflexivity.
Qed.

(** C7.  [transform_animals_batch] returns, for every list and every parser,
    the records that [transform_animal] transforms, in their order; a record
    on which [transform_animal] raises is left out and gives one entry of
    [errors], so the count of the records left out is that of the input less
    that of the output; a record whose [born_at] the parser rejects is such a
    record.  The function is total: it raises on no input. *)
Theorem transform_animals_batch_correct (animals : list AnimalDetail.t) :
  transform_animals_batch parse animals = transformed_in_order parse animals
  /\ List.length (snd (transform_animals_batch_loop parse animals))
     = List.length (failing parse animals)
  /\ Z.of_nat (List.length (failing parse animals))
     = Z.of_nat (List.length animals)
       - Z.of_nat (List.length (transform_animals_batch parse animals))
  /\ (forall a t, In a animals -> transform_animal parse a = Ok t ->
                  In t (transform_animals_batch parse animals))
  /\ (forall a s m,
        AnimalDetail.born_at a = Some (BornStr s) -> blank s = false ->
        parse s = Raise (ValueError m) ->
        In a (failing parse (a :: animals))
        /\ transform_animals_batch parse (a :: animals)
           = transform_animals_batch parse animals).
Proof.
  unfold transform_animals_batch, transform_animals_batch_loop.
  assert (Hall : forall l,
             fst (fold_left (transform_step parse) l ([], []))
             = transformed_in_order parse l).
  { intros l. destruct (transform_loop_spec l ([], [])) as (errs & Hf & _).
    now rewrite Hf. }
  destruct (transform_loop_spec animals ([], [])) as (errs & Hf & He).
  rewrite Hall. rewrite Hf. simpl snd. repeat split.
  - exact He.
  - pose proof (failing_count animals). lia.
  - intros a t Hin Ht. unfold transformed_in_order.
    apply in_flat_map. exists a. split; [assumption|]. rewrite Ht. now left.
  - unfold failing. simpl.
    rewrite (transform_animal_unparseable a s m) by assumption. now left.
  - rewrite !Hall. unfold transformed_in_order. simpl.
    now rewrite (transform_animal_unparseable a s m) by assumption.
Qed.

End batch.

(** ** The transport client *)

Section transport.
Import api_client.

Variable cfg : config.t.
Variable base_url : string.
Variable srv : server.


(** One attempt sends one request. *)
Lemma make_request_body_sent req sent :
  snd (make_request_body base_url srv req sent) = sent ++ [req].
Proof.
  unfold make_request_body.
  destruct (srv sent req) as [r| |m|m]; try reflexivity.
  destruct (in_codes (status_code r) config.RETRY_STATUS_CODES); [reflexivity|].
  unfold raise_for_status.
  destruct ((400 <=? status_code r) && (status_code r <? 600)); [|reflexivity].
  destruct (negb (in_codes (status_code r) config.RETRY_STATUS_CODES));
    reflexivity.
Qed.

(** One attempt returns the response or raises an [APIError]: the
    [HTTPError] of [raise_for_status] never leaves it. *)
Lemma make_request_body_result req sent :
  match fst (make_request_body base_url srv req sent) with
  | Ok r => srv sent req = Responded r /\ success_status (status_code r) = true
  | Raise e => is_APIError e = true
  end.
Proof.
  unfold make_request_body, success_status.
  destruct (srv sent req) as [r| |m|m]; try (simpl; reflexivity).
  destruct (in_codes (status_code r) config.RETRY_STATUS_CODES) eqn:E;
    [reflexivity|].
  unfold raise_for_status.
  destruct ((400 <=? status_code r) && (status_code r <? 600)) eqn:E2.
  - rewrite E. reflexivity.
  - cbn [fst]. rewrite E, E2. auto.
Qed.

(** A response with a success status is returned by the first attempt. *)
Lemma make_request_body_success req sent r :
  srv sent req = Responded r -> success_status (status_code r) = true ->
  make_request_body base_url srv req sent = (Ok r, sent ++ [req]).
Proof.
  intros Hs Hok. unfold make_request_body. rewrite Hs.
  unfold success_status in Hok. apply andb_true_iff in Hok as [H1 H2].
  apply negb_true_iff in H1, H2. rewrite H1.
  unfold raise_for_status. now rewrite H2.
Qed.

(** A response with an error status outside [RETRY_STATUS_CODES] makes the
    attempt raise the [APIError] of that status. *)
Lemma make_request_body_non_retryable req sent r :
  srv sent req = Responded r ->
  non_retryable_status (status_code r) = true ->
  make_request_body base_url srv req sent
  = (Raise (APIError
              ("HTTP " ++ PyStr.str_of_int (status_code r) ++ " error")
              (Some (status_code r)) (Some (text r))),
     sent ++ [req]).
Proof.
  intros Hs Hn. unfold make_request_body. rewrite Hs.
  unfold non_retryable_status in Hn. apply andb_true_iff in Hn as [H1 H2].
  rewrite negb_true_iff in H2. rewrite H2.
  unfold raise_for_status. rewrite H1. rewrite H2. reflexivity.
Qed.

(** [retry] makes between one and [more + 1] attempts, each sending the
    request once, and raises an [APIError] if it raises. *)
Lemma retry_body_spec more req sent :
  exists n,
    (n <= more)%nat
    /\ snd (retry more (make_request_body base_url srv req) sent)
       = sent ++ repeat req (S n)
    /\ match fst (retry more (make_request_body base_url srv req) sent) with
       | Ok r =>
           srv (sent ++ repeat req n) req = Responded r
           /\ success_status (status_code r) = true
       | Raise e => is_APIError e = true /\ n = more
       end.
Proof.
  revert sent. induction more as [|more IH]; intros sent; simpl.
  - exists 0%nat. split; [lia|].
    pose proof (make_request_body_sent req sent) as Hs.
    pose proof (make_request_body_result req sent) as Hr.
    destruct (make_request_body base_url srv req sent) as [[r|e] sent'];
      simpl in *; subst sent'.
    + rewrite app_nil_r. auto.
    + rewrite Hr, orb_true_r. simpl. auto.
  - pose proof (make_request_body_sent req sent) as Hs.
    pose proof (make_request_body_result req sent) as Hr.
    destruct (make_request_body base_url srv req sent) as [[r|e] sent'];
      simpl in *; subst sent'.
    + exists 0%nat. rewrite app_nil_r. simpl. split; [lia|auto].
    + rewrite Hr, orb_true_r.
      destruct (IH (sent ++ [req])) as (n & Hn & Hsent & Hres).
      exists (S n). split; [lia|]. split.
      * rewrite Hsent, <- app_assoc. reflexivity.
      * destruct (fst (retry more (make_request_body base_url srv req)
                         (sent ++ [req]))) as [r|e'].
        -- rewrite <- app_assoc in Hres. exact Hres.
        -- destruct Hres as [? ->]. auto.
Qed.

(** [_make_request] sends the request at least once and at most
    [max 1 MAX_RETRIES] times, and raises nothing but an [APIError]. *)
Lemma make_request_spec req sent :
  exists n,
    (n <= further_attempts cfg)%nat
    /\ snd (_make_request cfg base_url srv req sent) = sent ++ repeat req (S n)
    /\ match fst (_make_request cfg base_url srv req sent) with
       | Ok r =>
           srv (sent ++ repeat req n) req = Responded r
           /\ success_status (status_code r) = true
       | Raise e => is_APIError e = true /\ n = further_attempts cfg
       end.
Proof. apply retry_body_spec. Qed.

Lemma make_request_success req sent r :
  srv sent req = Responded r -> success_status (status_code r) = true ->
  _make_request cfg base_url srv req sent = (Ok r, sent ++ [req]).
Proof.
  intros Hs Hok. unfold _make_request.
  destruct (further_attempts cfg); simpl;
    now rewrite (make_request_body_success req sent r Hs Hok).
Qed.

(** When every attempt is answered by an error status outside
    [RETRY_STATUS_CODES], [retry] uses all its attempts. *)
Lemma retry_non_retryable more req sent code body_text :
  non_retryable_status code = true ->
  (forall hist, exists r,
      srv hist req = Responded r /\ status_code r = code /\ text r = body_text) ->
  retry more (make_request_body base_url srv req) sent
  = (Raise (APIError ("HTTP " ++ PyStr.str_of_int code ++ " error")
              (Some code) (Some body_text)),
     sent ++ repeat req (S more)).
Proof.
  intros Hc Hsrv. revert sent.
  induction more as [|more IH]; intros sent; simpl;
    destruct (Hsrv sent) as (r & Hr & <- & <-);
    rewrite (make_request_body_non_retryable req sent r Hr Hc); simpl.
  - reflexivity.
  - rewrite IH, <- app_assoc. reflexivity.
Qed.

End transport.


(** C4 (the code departs from the claim).  With the default [MAX_RETRIES] of
    3, a request that is answered 404 every time is sent three times before
    the [APIError] of the status is raised: the status is not one of
    [RETRY_STATUS_CODES], and the request is made again all the same. *)
Theorem make_request_retries_404 :
  let req := api_client.detail_request 1 in
  non_retryable_status 404 = true
  /\ api_client._make_request config.defaults "http://localhost:3123"
       not_found_server req []
     = (Raise (APIError "HTTP 404 error" (Some 404) (Some "Not Found")),
        [req; req; req]).
Proof. split; reflexivity. Qed.

(** The same for every configuration and every error status outside
    [RETRY_STATUS_CODES]: the request is sent [max 1 MAX_RETRIES] times. *)
Lemma make_request_non_retryable cfg base_url srv req sent code body_text :
  non_retryable_status code = true ->
  (forall hist, exists r,
      srv hist req = api_client.Responded r
      /\ api_client.status_code r = code /\ api_client.text r = body_text) ->
  api_client._make_request cfg base_url srv req sent
  = (Raise (APIError ("HTTP " ++ PyStr.str_of_int code ++ " error")
              (Some code) (Some body_text)),
     sent ++ repeat req (Z.to_nat (Z.max 1 (config.MAX_RETRIES cfg)))).
Proof.
  intros Hc Hs. unfold api_client._make_request.
  rewrite (retry_non_retryable base_url srv _ req sent code body_text Hc Hs).
  do 3 f_equal. unfold api_client.further_attempts. lia.
Qed.

(** ** Submission and extraction *)

Section submission.
Import api_client.

Variable cfg : config.t.
Variable base_url : string.
Variable srv : server.

(** C9.  Given more than 100 records [submit_animals_batch] raises a
    [ValueError] and the requests sent are those sent before: no request is
    made.  Given 100 records or fewer it makes the POST request to the home
    endpoint with the records as its body, at least once, and returns [True]
    when [_make_request] returns. *)
Theorem submit_animals_batch_limit
    (animals : list TransformedAnimal.t) (sent : list request) :
  (100 < Z.of_nat (List.length animals) ->
   submit_animals_batch cfg base_url srv animals sent
   = (Raise (ValueError
               ("Batch size "
                ++ PyStr.str_of_int (Z.of_nat (List.length animals))
                ++ " exceeds maximum of 100")),
      sent))
  /\ (Z.of_nat (List.length animals) <= 100 ->
      fst (submit_animals_batch cfg base_url srv animals sent)
      = (_ <- fst (_make_request cfg base_url srv (home_request animals) sent) ;;
         Ok true)
      /\ exists n,
           snd (submit_animals_batch cfg base_url srv animals sent)
           = sent ++ repeat (home_request animals) (S n)).
Proof.
  unfold submit_animals_batch. split; intros H.
  - apply Z.ltb_lt in H. now rewrite H.
  - apply Z.ltb_ge in H. rewrite H.
    destruct (make_request_spec cfg base_url srv (home_request animals) sent)
      as (n & _ & Hsent & _).
    destruct (_make_request cfg base_url srv (home_request animals) sent)
      as [[r|e] sent']; simpl in *; (split; [reflexivity|eauto]).
Qed.

(** What [submit_animals_batch] gives: [True], or an [APIError] or a
    [ValueError]; and a request is sent only for 100 records or fewer. *)
Lemma submit_animals_batch_result animals sent :
  match fst (submit_animals_batch cfg base_url srv animals sent) with
  | Ok b => b = true
  | Raise e => is_APIError e || is_ValueError e = true
  end.
Proof.
  unfold submit_animals_batch.
  destruct (100 <? Z.of_nat (List.length animals)); [reflexivity|].
  destruct (make_request_spec cfg base_url srv (home_request animals) sent)
    as (n & _ & _ & Hres).
  destruct (_make_request cfg base_url srv (home_request animals) sent)
    as [[r|e] sent']; simpl in *; [reflexivity|].
  destruct Hres as [-> _]. reflexivity.
Qed.


Lemma get_animals_page_served page_size pages hist k :
  serves_listing srv page_size pages -> (k < List.length pages)%nat ->
  exists p,
    get_animals_page cfg base_url srv (Z.of_nat (S k)) page_size hist
    = (Ok {| PaginatedResponse.page := p;
             PaginatedResponse.total_pages := Z.of_nat (List.length pages);
             PaginatedResponse.items := nth k pages [] |},
       hist ++ [list_request (Z.of_nat (S k)) page_size]).
Proof.
  intros Hs Hk. destruct (Hs hist k Hk) as (r & p & Hr & Hok & Hp & Hd).
  exists p. unfold get_animals_page.
  rewrite (make_request_success cfg base_url srv _ hist r Hr Hok).
  simpl. unfold parse_page. rewrite Hd. simpl.
  unfold PaginatedResponse.check_pagination.
  assert (E1 : (p <? 1) = false) by lia.
  assert (E2 : (Z.of_nat (List.length pages) <? 1) = false) by lia.
  now rewrite E1, E2.
Qed.

Lemma skipn_cons_nth {A} (l : list A) (n : nat) (d : A) :
  (n < List.length l)%nat -> skipn n l = nth n l d :: skipn (S n) l.
Proof.
  revert n. induction l as [|x l IH]; intros n H; simpl in H; [lia|].
  destruct n as [|n]; [reflexivity|].
  simpl. apply IH. lia.
Qed.

Lemma get_all_animals_loop_S fuel current_page all_animals sent :
  get_all_animals_loop cfg base_url srv (S fuel) current_page all_animals sent
  = match
      get_animals_page cfg base_url srv current_page
        (config.DEFAULT_PAGE_SIZE cfg) sent
    with
    | (Ok page_response, sent) =>
        if PaginatedResponse.total_pages page_response <=? current_page
        then Some (Ok (all_animals ++ PaginatedResponse.items page_response),
                   sent)
        else get_all_animals_loop cfg base_url srv fuel (current_page + 1)
               (all_animals ++ PaginatedResponse.items page_response) sent
    | (Raise e, sent) => Some (Raise e, sent)
    end.
Proof. reflexivity. Qed.

Lemma get_all_animals_loop_served pages count :
  serves_listing srv (config.DEFAULT_PAGE_SIZE cfg) pages ->
  forall first fuel all_animals sent,
    (first + S count = List.length pages)%nat -> (S count <= fuel)%nat ->
    get_all_animals_loop cfg base_url srv fuel (Z.of_nat (S first))
      all_animals sent
    = Some (Ok (all_animals ++ List.concat (skipn first pages)),
            sent ++ page_requests (config.DEFAULT_PAGE_SIZE cfg) first (S count)).
Proof.
  intros Hs. induction count as [|count IH];
    intros first fuel all_animals sent Hlen Hfuel;
    (destruct fuel as [|fuel]; [lia|]); rewrite get_all_animals_loop_S;
    destruct (get_animals_page_served _ pages sent first Hs ltac:(lia))
      as (p & ->); cbn [PaginatedResponse.items PaginatedResponse.total_pages].
  - assert (E : (Z.of_nat (List.length pages) <=? Z.of_nat (S first)) = true)
      by (apply Z.leb_le; lia).
    rewrite E. do 3 f_equal.
    rewrite (skipn_cons_nth pages first []) by lia.
    rewrite (skipn_all2 pages) by lia. simpl. now rewrite app_nil_r.
  - assert (E : (Z.of_nat (List.length pages) <=? Z.of_nat (S first)) = false)
      by (apply Z.leb_gt; lia).
    rewrite E.
    replace (Z.of_nat (S first) + 1) with (Z.of_nat (S (S first))) by lia.
    rewrite (IH (S first)) by lia.
    do 2 f_equal.
    + rewrite <- app_assoc. f_equal.
      rewrite (skipn_cons_nth pages first []) by lia. reflexivity.
    + rewrite <- app_assoc. reflexivity.
Qed.

End submission.

(** ** Requests and successful submissions *)

Section posts.
Import api_client.

Variable cfg : config.t.
Variable base_url : string.
Variable srv : server.


Lemma successful_posts_app hist new1 new2 :
  successful_posts srv hist (new1 ++ new2)
  = successful_posts srv hist new1 ++ successful_posts srv (hist ++ new1) new2.
Proof.
  revert hist. induction new1 as [|req new1 IH]; intros hist; simpl.
  - now rewrite app_nil_r.
  - rewrite IH, <- !app_assoc. reflexivity.
Qed.

Lemma make_request_body_ok req sent :
  is_Ok (fst (make_request_body base_url srv req sent)) = answered_ok srv sent req.
Proof.
  unfold answered_ok.
  pose proof (make_request_body_result base_url srv req sent) as H.
  destruct (srv sent req) as [r| |m|m] eqn:E;
    try (unfold make_request_body; rewrite E; reflexivity).
  destruct (success_status (status_code r)) eqn:Es.
  - now rewrite (make_request_body_success base_url srv req sent r E Es).
  - destruct (fst (make_request_body base_url srv req sent)) as [r'|e];
      [|reflexivity].
    destruct H as [[= <-] H]. congruence.
Qed.

(** The requests [_make_request] sends are copies of the request, one at
    least, and one of them is answered with a success exactly when it
    returns: the last one. *)
Lemma retry_posts more req sent :
  exists n,
    snd (retry more (make_request_body base_url srv req) sent)
    = sent ++ repeat req (S n)
    /\ successful_posts srv sent (repeat req (S n))
       = if is_Ok (fst (retry more (make_request_body base_url srv req) sent))
         then payload req else [].
Proof.
  revert sent. induction more as [|more IH]; intros sent; simpl retry;
    pose proof (make_request_body_sent base_url srv req sent) as Hs;
    pose proof (make_request_body_ok req sent) as Hok;
    pose proof (make_request_body_result base_url srv req sent) as Hr;
    destruct (make_request_body base_url srv req sent) as [[r|e] sent'];
    simpl in Hs, Hok, Hr; subst sent'.
  - exists 0%nat. simpl. rewrite <- Hok, app_nil_r. auto.
  - exists 0%nat. rewrite Hr, orb_true_r. simpl.
    rewrite <- Hok. auto.
  - exists 0%nat. simpl. rewrite <- Hok, app_nil_r. auto.
  - rewrite Hr, orb_true_r.
    destruct (IH (sent ++ [req])) as (n & Hsent & Hposts).
    exists (S n). split.
    + rewrite Hsent, <- app_assoc. reflexivity.
    + change (repeat req (S (S n))) with (req :: repeat req (S n)).
      cbn [successful_posts]. rewrite <- Hok. exact Hposts.
Qed.

Lemma make_request_posts req sent :
  exists n,
    snd (_make_request cfg base_url srv req sent) = sent ++ repeat req (S n)
    /\ successful_posts srv sent (repeat req (S n))
       = if is_Ok (fst (_make_request cfg base_url srv req sent))
         then payload req else [].
Proof. apply retry_posts. Qed.


Lemma only_gets_refl sent : only_gets srv sent sent.
Proof. exists []. now rewrite app_nil_r. Qed.

Lemma only_gets_trans s1 s2 s3 :
  only_gets srv s1 s2 -> only_gets srv s2 s3 -> only_gets srv s1 s3.
Proof.
  intros (n1 & -> & H1) (n2 & -> & H2). exists (n1 ++ n2).
  rewrite successful_posts_app, H1, H2, app_assoc. auto.
Qed.

Lemma make_request_get req sent :
  method req = GET ->
  only_gets srv sent (snd (_make_request cfg base_url srv req sent)).
Proof.
  intros Hm. destruct (make_request_posts req sent) as (n & Hs & Hp).
  exists (repeat req (S n)). split; [assumption|].
  rewrite Hp. unfold payload. rewrite Hm. now destruct (is_Ok _).
Qed.


Lemma get_animal_detail_gets animal_id sent :
  only_gets srv sent (snd (get_animal_detail cfg base_url srv animal_id sent)).
Proof.
  unfold get_animal_detail.
  pose proof (make_request_get (detail_request animal_id) sent eq_refl) as H.
  now destruct (_make_request cfg base_url srv (detail_request animal_id) sent).
Qed.


(** [get_animal_detail] raises nothing but an [APIError] or a
    [TypeError]. *)
Lemma get_animal_detail_raises animal_id sent e :
  fst (get_animal_detail cfg base_url srv animal_id sent) = Raise e ->
  is_APIError e = true \/ exists m, e = TypeError m.
Proof.
  unfold get_animal_detail.
  destruct (make_request_spec cfg base_url srv (detail_request animal_id) sent)
    as (n & _ & _ & Hres).
  destruct (_make_request cfg base_url srv (detail_request animal_id) sent)
    as [[r|e'] sent']; simpl in *.
  - unfold parse_detail.
    destruct (data r); simpl; intros [= <-]; eauto.
  - destruct Hres as [He _]. destruct e'; try discriminate.
    simpl. intros [= <-]. auto.
Qed.

End posts.

(** ** Batches *)

Section batches.

Context {A : Type}.

Lemma firstn_add_skipn (l : list A) (n m : nat) :
  firstn (n + m) l = firstn n l ++ firstn m (skipn n l).
Proof.
  revert l. induction n as [|n IH]; intros l; [reflexivity|].
  destruct l as [|x l]; simpl.
  - now rewrite firstn_nil.
  - now rewrite IH.
Qed.


Lemma concat_pieces (l : list A) (b c : nat) :
  List.concat (pieces l b c) = firstn (c * b) l.
Proof.
  unfold pieces. induction c as [|c IH]; [reflexivity|].
  rewrite seq_S, map_app, concat_app, IH. simpl.
  rewrite app_nil_r, <- firstn_add_skipn. f_equal. lia.
Qed.

Lemma length_piece (l : list A) (b k : nat) :
  List.length (firstn b (skipn (k * b) l))
  = Nat.min b (List.length l - k * b).
Proof. now rewrite length_firstn, length_skipn. Qed.

(** A slice that starts inside the list and is [width] long. *)
Lemma py_slice_firstn (l : list A) (i width : Z) :
  0 <= i < Z.of_nat (List.length l) -> 0 < width ->
  py_slice l i (i + width)
  = firstn (Z.to_nat width) (skipn (Z.to_nat i) l).
Proof.
  intros Hi Hw. unfold py_slice, slice_bound.
  assert (E1 : (i <? 0) = false) by lia.
  assert (E2 : (i + width <? 0) = false) by lia.
  rewrite E1, E2.
  replace (Z.min i (Z.of_nat (List.length l))) with i by lia.
  destruct (Z.le_gt_cases (i + width) (Z.of_nat (List.length l))) as [H|H].
  - replace (Z.min (i + width) (Z.of_nat (List.length l)) - i) with width
      by lia.
    reflexivity.
  - replace (Z.min (i + width) (Z.of_nat (List.length l)) - i)
      with (Z.of_nat (List.length l) - i) by lia.
    rewrite !firstn_all2; [reflexivity| |]; rewrite length_skipn; lia.
Qed.


Lemma py_range_positive (n width : Z) :
  0 < width ->
  py_range 0 n width
  = Ok (map (fun k => Z.of_nat k * width) (seq 0 (range_count n width))).
Proof.
  intros Hw. unfold py_range, range_count.
  assert (E1 : (width =? 0) = false) by lia.
  assert (E2 : (0 <? width) = true) by lia.
  rewrite E1, E2. rewrite Z.sub_0_r. reflexivity.
Qed.

Lemma range_count_bounds (n width : Z) :
  0 < width -> 0 <= n ->
  n <= Z.of_nat (range_count n width) * width
  /\ (forall k, (k < range_count n width)%nat -> Z.of_nat k * width < n).
Proof.
  intros Hw Hn. unfold range_count.
  destruct (n <=? 0) eqn:E.
  - split; [simpl; lia|]. simpl. lia.
  - assert (Hq : 0 <= (n - 1) / width) by (apply Z.div_pos; lia).
    pose proof (Z.mul_div_le (n - 1) width Hw).
    pose proof (Z.mul_succ_div_gt (n - 1) width Hw).
    rewrite Z2Nat.id by lia. split; [nia|].
    intros k Hk. nia.
Qed.


Lemma load_batches_pieces (batch_size : Z) (l : list A) :
  0 < batch_size ->
  load_batches batch_size l
  = Ok (pieces l (Z.to_nat batch_size)
          (range_count (Z.of_nat (List.length l)) batch_size)).
Proof.
  intros Hb. unfold load_batches. rewrite py_range_positive by assumption.
  simpl. f_equal. unfold pieces. rewrite map_map.
  apply map_ext_in. intros k Hk. apply in_seq in Hk.
  destruct (range_count_bounds (Z.of_nat (List.length l)) batch_size Hb
              ltac:(lia)) as [_ Hlt].
  rewrite py_slice_firstn
    by first [assumption | split; [lia | apply Hlt; lia]].
  do 2 f_equal. rewrite Z2Nat.inj_mul, Nat2Z.id by lia. reflexivity.
Qed.

(** For a positive batch size the batches are consecutive pieces of the
    list, in its order and covering it; each has between one record and the
    batch size, and each but the last has the batch size. *)
Lemma load_batches_partition (batch_size : Z) (l : list A) :
  0 < batch_size ->
  exists batches,
    load_batches batch_size l = Ok batches
    /\ List.concat batches = l
    /\ Forall (fun b => 0 < Z.of_nat (List.length b) <= batch_size) batches
    /\ (forall k, (S k < List.length batches)%nat ->
                  Z.of_nat (List.length (nth k batches [])) = batch_size).
Proof.
  intros Hb. eexists. split; [apply load_batches_pieces; assumption|].
  set (n := Z.of_nat (List.length l)).
  destruct (range_count_bounds n batch_size Hb ltac:(lia)) as [Hge Hlt].
  set (c := range_count n batch_size) in *.
  repeat split.
  - rewrite concat_pieces. apply firstn_all2. subst n. nia.
  - unfold pieces. apply Forall_forall. intros b Hin.
    apply in_map_iff in Hin as (k & <- & Hk). apply in_seq in Hk.
    rewrite length_piece. specialize (Hlt k ltac:(lia)). subst n. nia.
  - intros k H. unfold pieces in *. rewrite length_map, length_seq in H.
    rewrite (nth_indep _ [] (firstn (Z.to_nat batch_size)
                               (skipn (0 * Z.to_nat batch_size) l)))
      by (rewrite length_map, length_seq; lia).
    rewrite (map_nth (fun k => firstn (Z.to_nat batch_size)
                                 (skipn (k * Z.to_nat batch_size) l))).
    rewrite seq_nth by lia. simpl Nat.add.
    rewrite length_piece. specialize (Hlt (S k) ltac:(lia)). subst n. nia.
Qed.

End batches.

(** ** Loading *)

Section loading.
Import api_client etl_processor.

Variable cfg : config.t.
Variable base_url : string.
Variable srv : server.
Variable batch_size : Z.


Lemma loaded_total batches sent :
  exists oks sent', loaded cfg base_url srv sent batches oks sent'.
Proof.
  revert sent. induction batches as [|b batches IH]; intros sent.
  - exists [], sent. constructor.
  - destruct (submit_animals_batch cfg base_url srv b sent) as [r sent1] eqn:E.
    destruct (IH sent1) as (oks & sent2 & H).
    exists (is_Ok r :: oks), sent2. econstructor; eassumption.
Qed.

Lemma loaded_length sent batches oks sent' :
  loaded cfg base_url srv sent batches oks sent' -> List.length oks = List.length batches.
Proof. induction 1; simpl; congruence. Qed.

Lemma submit_animals_batch_posts batch sent r sent1 :
  submit_animals_batch cfg base_url srv batch sent = (r, sent1) ->
  (100 < len batch /\ sent1 = sent /\ is_Ok r = false)
  \/ (len batch <= 100
      /\ exists n,
           sent1 = sent ++ repeat (home_request batch) (S n)
           /\ successful_posts srv sent (repeat (home_request batch) (S n))
              = if is_Ok r then [batch] else []).
Proof.
  unfold submit_animals_batch, len.
  destruct (100 <? Z.of_nat (List.length batch)) eqn:E.
  - intros [= <- <-]. left. repeat split. lia.
  - intros H. right. split; [lia|].
    destruct (make_request_posts cfg base_url srv (home_request batch) sent)
      as (n & Hs & Hp).
    exists n.
    destruct (_make_request cfg base_url srv (home_request batch) sent)
      as [[resp|e] sent']; simpl in *; injection H as <- <-; auto.
Qed.

Lemma loaded_posts sent batches oks sent' :
  loaded cfg base_url srv sent batches oks sent' ->
  exists new,
    sent' = sent ++ new /\ posts_for batches new
    /\ successful_posts srv sent new = succeeded batches oks.
Proof.
  induction 1 as [sent|sent batch batches r sent1 oks sent2 Hsub _ IH].
  - exists []. rewrite app_nil_r. repeat split. constructor.
  - destruct IH as (new & -> & Hposts & Hok).
    apply submit_animals_batch_posts in Hsub
      as [(Hlen & -> & Hr)|(Hlen & n & -> & Hp)].
    + exists new. rewrite Hr. repeat split; [|assumption].
      now apply posts_over.
    + exists (repeat (home_request batch) (S n) ++ new).
      rewrite app_assoc. repeat split.
      * now apply posts_within.
      * rewrite successful_posts_app, Hp, Hok. reflexivity.
Qed.

Lemma loaded_oversize sent batches oks sent' :
  loaded cfg base_url srv sent batches oks sent' ->
  Forall2 (fun batch ok => 100 < len batch -> ok = false) batches oks.
Proof.
  induction 1 as [sent|sent batch batches r sent1 oks sent2 Hsub _ IH];
    constructor; [|exact IH].
  intros Hlen.
  apply submit_animals_batch_posts in Hsub as [(_ & _ & Hr)|(Hle & _)];
    [exact Hr|lia].
Qed.

Lemma succeeded_count batches oks :
  List.length oks = List.length batches ->
  len (succeeded batches oks) + count_failed oks = len batches.
Proof.
  unfold count_failed, len. revert oks.
  induction batches as [|b batches IH]; intros [|ok oks] Hl;
    try discriminate; [reflexivity|].
  injection Hl as Hl. specialize (IH oks Hl).
  destruct ok; cbn [succeeded filter negb app List.length] in *; lia.
Qed.

Lemma succeeded_all batches oks :
  List.length oks = List.length batches ->
  (succeeded batches oks = batches <-> count_failed oks = 0).
Proof.
  intros Hl. pose proof (succeeded_count batches oks Hl) as Hc. split.
  - intros H. rewrite H in Hc. lia.
  - clear Hc. revert oks Hl. unfold count_failed, len.
    induction batches as [|b batches IH]; intros [|ok oks] Hl;
      try discriminate; [reflexivity|].
    injection Hl as Hl. destruct ok; cbn [succeeded filter negb app List.length].
    + intros H. f_equal. now apply IH.
    + lia.
Qed.


Lemma total_len_concat batches : total_len batches = len (List.concat batches).
Proof.
  unfold total_len, len.
  induction batches as [|b batches IH]; cbn [fold_right List.concat].
  - reflexivity.
  - rewrite length_app. lia.
Qed.

Lemma loop_result_eq (a a' b b' c c' : Z) (sent : list request) :
  a = a' -> b = b' -> c = c' ->
  (@Ok (Z * Z * Z) (a, b, c), sent) = (Ok (a', b', c'), sent).
Proof. congruence. Qed.

(** The loop of [load_animals] returns; its counters are those of the
    batches taken one after the other. *)
Lemma load_animals_loop_loaded transformed_animals starts :
  forall total_submitted failed_batches batch_number sent oks sent',
    let batches :=
      map (fun i => py_slice transformed_animals i (i + batch_size)) starts in
    loaded cfg base_url srv sent batches oks sent' ->
    load_animals_loop cfg base_url srv batch_size starts transformed_animals
      total_submitted failed_batches batch_number sent
    = (Ok (total_submitted + total_len (succeeded batches oks),
           failed_batches + count_failed oks,
           batch_number + len batches),
       sent').
Proof.
  unfold count_failed, total_len, len.
  induction starts as [|i starts IH];
    intros total_submitted failed_batches batch_number sent oks sent' H;
    cbn [map] in H; inversion H; subst;
    cbn [map load_animals_loop succeeded filter negb fold_right app List.length].
  - now rewrite !Z.add_0_r.
  - match goal with Hs : submit_animals_batch _ _ _ _ _ = _ |- _ =>
      rewrite Hs;
      pose proof (submit_animals_batch_result cfg base_url srv
                    (py_slice transformed_animals i (i + batch_size)) sent)
        as Hres;
      rewrite Hs in Hres; simpl in Hres
    end.
    destruct r as [b|e]; cbn [is_Ok negb filter app fold_right List.length].
    + subst b. erewrite IH by eassumption. unfold len.
      apply loop_result_eq; lia.
    + rewrite Hres. erewrite IH by eassumption.
      apply loop_result_eq; lia.
Qed.

(** [load_animals] raises when the range does, and returns otherwise, its
    counters being those of the batches. *)
Lemma load_animals_spec transformed_animals stats sent :
  match load_batches batch_size transformed_animals with
  | Raise e =>
      load_animals cfg base_url srv batch_size transformed_animals stats sent
      = (Raise e, stats, sent)
  | Ok batches =>
      exists oks sent',
        loaded cfg base_url srv sent batches oks sent'
        /\ load_animals cfg base_url srv batch_size transformed_animals
             stats sent
           = (Ok (count_failed oks =? 0),
              ETLStats.with_submitted stats
                (total_len (succeeded batches oks))
                (len batches - count_failed oks) (count_failed oks),
              sent')
  end.
Proof.
  unfold load_batches, load_animals, len.
  destruct (py_range 0 (Z.of_nat (List.length transformed_animals)) batch_size)
    as [starts|e]; simpl; [|reflexivity].
  destruct (loaded_total
              (map (fun i => py_slice transformed_animals i (i + batch_size))
                 starts) sent) as (oks & sent' & H).
  exists oks, sent'. split; [assumption|].
  rewrite (load_animals_loop_loaded _ _ _ _ _ _ _ _ H). simpl.
  unfold len. do 3 f_equal.
Qed.

(** The range of [load_animals] raises for the batch size zero only, and is
    empty for a negative one. *)
Lemma load_batches_raises (l : list TransformedAnimal.t) :
  is_Ok (load_batches batch_size l) = negb (batch_size =? 0).
Proof.
  unfold load_batches, py_range.
  destruct (batch_size =? 0); [reflexivity|].
  destruct (0 <? batch_size); simpl; reflexivity.
Qed.


(** C3, amended.  For a positive batch size [load_animals] forms consecutive
    batches that cover the records in their order, each of between one
    record and the batch size, each but the last of the batch size: the size
    is not capped at 100.  The batches are submitted one after the other,
    whatever became of the batches before; [oks] tells for each batch
    whether [submit_animals_batch] returned for it.  A batch of more than 100
    records is refused before any request and its flag is [false]; every
    other batch is posted.  The loop ends, and it counts as failed the
    batches whose flag is [false], every batch of more than 100 records
    among them, as submitted batches all the others, as submitted records the
    records of these others, which are the batches a POST was answered for
    with success; it returns whether no batch failed. *)
Theorem load_animals_batches
    (transformed_animals : list TransformedAnimal.t)
    (stats : ETLStats.t) (sent : list request) :
  0 < batch_size ->
  exists batches oks new ok stats',
    load_batches batch_size transformed_animals = Ok batches
    /\ List.concat batches = transformed_animals
    /\ Forall (fun b => 0 < len b <= batch_size) batches
    /\ (forall k, (S k < List.length batches)%nat ->
                  len (nth k batches []) = batch_size)
    /\ load_animals cfg base_url srv batch_size transformed_animals stats sent
       = (Ok ok, stats', sent ++ new)
    /\ posts_for batches new
    /\ ETLStats.total_batches_submitted stats'
       + ETLStats.failed_submissions stats' = len batches
    /\ loaded cfg base_url srv sent batches oks (sent ++ new)
    /\ Forall2 (fun batch ok => 100 < len batch -> ok = false) batches oks
    /\ successful_posts srv sent new = succeeded batches oks
    /\ ETLStats.failed_submissions stats' = count_failed oks
    /\ ETLStats.total_batches_submitted stats' = len (succeeded batches oks)
    /\ ETLStats.total_animals_submitted stats'
       = total_len (succeeded batches oks)
    /\ ok = (ETLStats.failed_submissions stats' =? 0)
    /\ stats'
       = ETLStats.with_submitted stats
           (ETLStats.total_animals_submitted stats')
           (ETLStats.total_batches_submitted stats')
           (ETLStats.failed_submissions stats').
Proof.
  intros Hb.
  destruct (load_batches_partition batch_size transformed_animals Hb)
    as (batches & Hbs & Hc & Hsz & Hfull).
  pose proof (load_animals_spec transformed_animals stats sent) as Hl.
  rewrite Hbs in Hl. destruct Hl as (oks & sent' & Hld & Hl).
  pose proof (loaded_oversize _ _ _ _ Hld) as Hover.
  pose proof (succeeded_count batches oks (loaded_length _ _ _ _ Hld)) as Hn.
  destruct (loaded_posts _ _ _ _ Hld) as (new & -> & Hposts & Hok).
  eexists batches, oks, new, _, _.
  split; [exact Hbs|]. split; [exact Hc|]. split; [exact Hsz|].
  split; [exact Hfull|]. split; [exact Hl|]. split; [exact Hposts|].
  cbn [ETLStats.with_submitted ETLStats.total_batches_submitted
       ETLStats.failed_submissions ETLStats.total_animals_submitted].
  split; [lia|]. split; [exact Hld|]. split; [exact Hover|].
  split; [exact Hok|]. split; [reflexivity|]. split; [lia|].
  split; [reflexivity|]. split; reflexivity.
Qed.

End loading.

(** ** The run *)

Section running.
Import api_client etl_processor.

Variable cfg : config.t.
Variable base_url : string.
Variable srv : server.
Variable parse : string -> result Datetime.datetime.
Variable batch_size : Z.


(** The loop of [extract_animal_details] sends GET requests only; when it
    returns, every summary has given a detail or a failure, and when it
    raises, the exception is not an [APIError]. *)
Lemma extract_animal_details_loop_spec animal_summaries :
  forall animal_details failed_count sent,
    only_gets srv sent
      (snd (extract_animal_details_loop cfg base_url srv animal_summaries
              animal_details failed_count sent))
    /\ match
         fst (extract_animal_details_loop cfg base_url srv animal_summaries
                animal_details failed_count sent)
       with
       | Ok (details, failed) =>
           len details + failed
           = len animal_details + failed_count + len animal_summaries
       | Raise e => is_APIError e = false
       end.
Proof.
  unfold len.
  induction animal_summaries as [|s rest IH];
    intros animal_details failed_count sent;
    cbn [extract_animal_details_loop].
  - split; [apply only_gets_refl|]. cbn [fst List.length]. lia.
  - pose proof (get_animal_detail_gets cfg base_url srv (AnimalSummary.id s) sent)
      as Hg.
    pose proof (get_animal_detail_raises cfg base_url srv (AnimalSummary.id s)
                  sent) as Hr.
    destruct (get_animal_detail cfg base_url srv (AnimalSummary.id s) sent)
      as [[d|e] sent1]; cbn [fst snd] in Hg, Hr.
    + destruct (IH (animal_details ++ [d]) failed_count sent1) as [H1 H2].
      split; [eapply only_gets_trans; eassumption|].
      destruct (fst (extract_animal_details_loop cfg base_url srv rest
                       (animal_details ++ [d]) failed_count sent1))
        as [[details failed]|e]; [|assumption].
      rewrite length_app in H2. cbn [List.length] in *. lia.
    + destruct (is_APIError e) eqn:Ee.
      * destruct (IH animal_details (failed_count + 1) sent1) as [H1 H2].
        split; [eapply only_gets_trans; eassumption|].
        destruct (fst (extract_animal_details_loop cfg base_url srv rest
                         animal_details (failed_count + 1) sent1))
          as [[details failed]|e']; [|assumption].
        cbn [List.length] in *. lia.
      * split; assumption.
Qed.


(** C2, amended.  [run] returns when the extraction ends.  It returns
    [False] when the extraction raises, [True] when it finds no summary;
    [False] when the detailing raises or gives no detail, when no record is
    transformed, or when the range of the batches raises, which it does for
    the batch size zero and for no other; and otherwise [True] exactly when
    the batches submitted with success are all the batches. *)
Theorem run_result (fuel : nat) (stats0 : ETLStats.t) (sent0 : list request) :
  match extract_animals cfg base_url srv fuel stats0 sent0 with
  | None => run cfg base_url srv parse batch_size fuel stats0 sent0 = None
  | Some (extraction, stats1, sent1) =>
      exists verdict stats sent,
        run cfg base_url srv parse batch_size fuel stats0 sent0
        = Some (verdict, stats, sent)
        /\ match extraction with
           | Raise _ => verdict = false
           | Ok [] => verdict = true
           | Ok animal_summaries =>
               match
                 extract_animal_details cfg base_url srv animal_summaries
                   stats1 sent1
               with
               | (Raise _, _, _) | (Ok [], _, _) => verdict = false
               | (Ok animal_details, _, sent2) =>
                   match
                     transformers.transform_animals_batch parse animal_details
                   with
                   | [] => verdict = false
                   | transformed_animals =>
                       match load_batches batch_size transformed_animals with
                       | Raise _ => verdict = false /\ batch_size = 0
                       | Ok batches =>
                           batch_size <> 0
                           /\ exists new,
                                sent = sent2 ++ new
                                /\ (verdict = true
                                    <-> successful_posts srv sent2 new
                                        = batches)
                       end
                   end
               end
           end
  end.
Proof.
  unfold run.
  destruct (extract_animals cfg base_url srv fuel stats0 sent0)
    as [[[[summaries|e] stats1] sent1]|]; [| |reflexivity].
  2: { eexists _, _, _. split; reflexivity. }
  destruct summaries as [|s summaries].
  { eexists _, _, _. split; reflexivity. }
  destruct (extract_animal_details cfg base_url srv (s :: summaries) stats1
              sent1) as [[[details|e] stats2] sent2].
  2: { eexists _, _, _. split; reflexivity. }
  destruct details as [|d details].
  { eexists _, _, _. split; reflexivity. }
  unfold transform_animals.
  destruct (transformers.transform_animals_batch parse (d :: details))
    as [|t transformed] eqn:Et.
  { eexists _, _, _. split; reflexivity. }
  set (stats3 := ETLStats.with_transformed _ _ _).
  pose proof (load_animals_spec cfg base_url srv batch_size (t :: transformed)
                stats3 sent2) as Hl.
  pose proof (load_batches_raises batch_size (t :: transformed)) as Hz.
  destruct (load_batches batch_size (t :: transformed)) as [batches|e].
  - destruct Hl as (oks & sent' & Hld & ->).
    destruct (loaded_posts _ _ _ _ _ _ _ Hld) as (new & -> & _ & Hp).
    eexists _, _, _. split; [reflexivity|].
    split; [simpl in Hz; lia|].
    exists new. split; [reflexivity|]. rewrite Hp.
    rewrite (succeeded_all batches oks (loaded_length _ _ _ _ _ _ _ Hld)).
    apply Z.eqb_eq.
  - rewrite Hl. eexists _, _, _. split; [reflexivity|].
    split; [reflexivity|]. simpl in Hz. lia.
Qed.





End running.


Section examples.
Import api_client etl_processor samples.

Lemma listing_server_serves page_size pages :
  serves_listing (listing_server pages) page_size pages.
Proof.
  intros hist k Hk. eexists _, (Z.of_nat (S k)).
  unfold listing_server, list_request. cbn [method url params].
  rewrite String.eqb_refl.
  assert (E : (1 <=? Z.of_nat (S k))
              && (Z.of_nat (S k) <=? Z.of_nat (List.length pages)) = true).
  { apply andb_true_iff. split; apply Z.leb_le; lia. }
  rewrite E. split; [reflexivity|]. split; [reflexivity|].
  split; [lia|]. cbn [data]. do 2 f_equal. lia.
Qed.

End examples.

Section extraction.
Import api_client.

Variable cfg : config.t.
Variable base_url : string.
Variable srv : server.

Lemma length_concat_sum {A} (ls : list (list A)) :
  List.length (List.concat ls) = list_sum (map (@List.length A) ls).
Proof.
  induction ls as [|l ls IH]; simpl; [reflexivity|].
  now rewrite length_app, IH.
Qed.

(** C8.  When the pages start at 1 and the server serves a listing of [N]
    pages, each reporting [N] pages, [get_all_animals] ends within [N] turns
    of its loop, has sent the requests for the pages 1 to [N], one each and
    in this order, and returns the items of the pages one after the other,
    as many as the pages hold together. *)
Theorem get_all_animals_listing
    (pages : list (list AnimalSummary.t)) (fuel : nat) (sent : list request) :
  config.START_PAGE cfg = 1 ->
  pages <> [] ->
  serves_listing srv (config.DEFAULT_PAGE_SIZE cfg) pages ->
  (List.length pages <= fuel)%nat ->
  get_all_animals cfg base_url srv fuel sent
  = Some (Ok (List.concat pages),
          sent ++ page_requests (config.DEFAULT_PAGE_SIZE cfg) 0
                    (List.length pages))
  /\ List.length (page_requests (config.DEFAULT_PAGE_SIZE cfg) 0
                    (List.length pages))
     = List.length pages
  /\ List.length (List.concat pages)
     = list_sum (map (@List.length _) pages).
Proof.
  intros Hstart Hne Hs Hfuel. split; [|split].
  - unfold get_all_animals. rewrite Hstart.
    destruct pages as [|p ps]; [congruence|].
    change 1 with (Z.of_nat 1).
    rewrite (get_all_animals_loop_served cfg base_url srv (p :: ps)
               (List.length ps) Hs 0%nat) by (simpl in *; lia).
    reflexivity.
  - unfold page_requests. now rewrite length_map, length_seq.
  - apply length_concat_sum.
Qed.

End extraction.

Section witnesses.
Import api_client etl_processor samples.

Lemma get_all_animals_listing_witness :
  get_all_animals config.defaults base_url (listing_server two_pages) 2 []
  = Some (Ok [summary 1; summary 2; summary 3; summary 4; summary 5],
          [list_request 1 20; list_request 2 20])
  /\ List.length (page_requests 20 0 2) = 2%nat
  /\ List.length (List.concat two_pages) = 5%nat.
Proof.
  exact (get_all_animals_listing config.defaults base_url
           (listing_server two_pages) two_pages 2 [] eq_refl
           ltac:(discriminate) (listing_server_serves 20 two_pages)
           (le_n 2)).
Defined.


(** C2, as it is stated, fails.  With the batch size zero, a run that finds
    five summaries, details and transforms all five returns [False], having
    submitted no batch: no request is a POST and no submission is counted as
    failed, where the claim gives success. *)
Lemma run_batch_size_zero :
  exists stats sent,
    run config.defaults base_url (listing_server two_pages) sample_parse 0 2
      ETLStats.initial []
    = Some (false, stats, sent)
    /\ ETLStats.total_animals_found stats = 5
    /\ ETLStats.total_animals_detailed stats = 5
    /\ ETLStats.total_animals_transformed stats = 5
    /\ ETLStats.failed_submissions stats = 0
    /\ flat_map payload sent = []
    /\ verdict_as_claimed false 5 5 5 [] = true.
Proof.
  eexists _, _. split; [vm_compute; reflexivity|].
  repeat split.
Qed.

(** C3, as it is stated, fails.  With the batch size 150 the 150 records
    make one batch of 150, more than 100 and more than the smaller of 150 and
    100; the batch is refused, no request is sent, and no record is
    submitted. *)
Lemma load_animals_batch_of_150 :
  load_batches 150 (repeat (record 1) 150) = Ok [repeat (record 1) 150]
  /\ len (repeat (record 1) 150) = 150
  /\ Z.min 150 100 = 100
  /\ load_animals config.defaults base_url (listing_server two_pages) 150
       (repeat (record 1) 150) ETLStats.initial []
     = (Ok false,
        ETLStats.with_submitted ETLStats.initial 0 0 1,
        []).
Proof. repeat split; vm_compute; reflexivity. Qed.

Lemma load_animals_batches_witness :
  0 < 2
  /\ exists batches oks new ok stats',
       load_batches 2 (map record [1; 2; 3; 4; 5]) = Ok batches
       /\ List.concat batches = map record [1; 2; 3; 4; 5]
       /\ Forall (fun b => 0 < len b <= 2) batches
       /\ (forall k, (S k < List.length batches)%nat ->
                     len (nth k batches []) = 2)
       /\ load_animals config.defaults base_url (listing_server two_pages) 2
            (map record [1; 2; 3; 4; 5]) ETLStats.initial []
          = (Ok ok, stats', [] ++ new)
       /\ posts_for batches new
       /\ ETLStats.total_batches_submitted stats'
          + ETLStats.failed_submissions stats' = len batches
       /\ loaded config.defaults base_url (listing_server two_pages) []
            batches oks ([] ++ new)
       /\ Forall2 (fun batch ok => 100 < len batch -> ok = false) batches oks
       /\ successful_posts (listing_server two_pages) [] new
          = succeeded batches oks
       /\ ETLStats.failed_submissions stats' = count_failed oks
       /\ ETLStats.total_batches_submitted stats'
          = len (succeeded batches oks)
       /\ ETLStats.total_animals_submitted stats'
          = total_len (succeeded batches oks)
       /\ ok = (ETLStats.failed_submissions stats' =? 0)
       /\ stats'
          = ETLStats.with_submitted ETLStats.initial
              (ETLStats.total_animals_submitted stats')
              (ETLStats.total_batches_submitted stats')
              (ETLStats.failed_submissions stats').
Proof.
  split; [reflexivity|].
  exact (load_animals_batches config.defaults base_url
           (listing_server two_pages) 2 (map record [1; 2; 3; 4; 5])
           ETLStats.initial [] eq_refl).
Defined.



End witnesses.

(** * Further properties *)

(** ** The transformer *)

Section transformer_more.
Import PyStr transformers.

Variable parse : string -> result Datetime.datetime.

Lemma string_app_assoc (a b c : string) :
  ((a ++ b) ++ c = a ++ b ++ c)%string.
Proof. induction a as [|x a IH]; simpl; [reflexivity|now rewrite IH]. Qed.

Lemma string_app_nil_r (a : string) : (a ++ "" = a)%string.
Proof. induction a as [|x a IH]; simpl; [reflexivity|now rewrite IH]. Qed.

Lemma has_suffix_app (t a s : string) :
  has_suffix t s -> has_suffix t (a ++ s).
Proof.
  intros [p ->]. exists (a ++ p)%string. now rewrite string_app_assoc.
Qed.

(** The text of an aware [datetime] ends with its offset. *)
Lemma isoformat_offset (d : Datetime.datetime) (off : Z) :
  Datetime.tzinfo d = Some off ->
  has_suffix (Datetime.format_offset off) (Datetime.isoformat d).
Proof.
  intros H. unfold Datetime.isoformat, Datetime.isoformat_sep. rewrite H.
  cbv zeta. do 12 apply has_suffix_app. exists "". reflexivity.
Qed.

Lemma astimezone_UTC_tzinfo d u :
  astimezone_UTC d = Ok u -> Datetime.tzinfo u = Some Datetime.UTC.
Proof.
  unfold astimezone_UTC, Datetime.astimezone.
  destruct (Datetime.ord2ymd _) as [[y m] dd].
  destruct ((Datetime.MINYEAR <=? y) && (y <=? Datetime.MAXYEAR));
    [|discriminate].
  intros [= <-]. reflexivity.
Qed.

(** What [transform_born_at] returns is nothing or a text that ends with the
    offset of UTC, whatever the value, its time zone and the parser. *)
Theorem transform_born_at_utc (born_at_val : option born_at_value) (s : string) :
  transform_born_at parse born_at_val = Ok (Some s) ->
  has_suffix "+00:00" s.
Proof.
  assert (Hnaive : forall d,
             has_suffix "+00:00"
               (Datetime.isoformat (Datetime.replace_tzinfo d Datetime.UTC))).
  { intros d.
    apply (isoformat_offset (Datetime.replace_tzinfo d Datetime.UTC) 0).
    reflexivity. }
  assert (Haware : forall d u, astimezone_UTC d = Ok u ->
                               has_suffix "+00:00" (Datetime.isoformat u)).
  { intros d u Hu. apply astimezone_UTC_tzinfo in Hu.
    apply (isoformat_offset u 0 Hu). }
  unfold transform_born_at.
  destruct born_at_val as [[str|d]|]; [| |discriminate].
  - destruct (strip str =? "")%string; [discriminate|].
    destruct (parse str) as [d|e]; cbn [bind].
    + destruct (Datetime.tzinfo d).
      * destruct (astimezone_UTC d) as [u|e] eqn:Eu; cbn [bind].
        -- intros [= <-]. eapply Haware; eassumption.
        -- destruct e; discriminate.
      * cbn [bind]. intros [= <-]. apply Hnaive.
    + destruct e; discriminate.
  - destruct (Datetime.tzinfo d).
    + destruct (astimezone_UTC d) as [u|e] eqn:Eu; cbn [bind]; [|discriminate].
      intros [= <-]. eapply Haware; eassumption.
    + intros [= <-]. apply Hnaive.
Qed.

(** A [datetime] without time zone is taken for UTC as it stands: its text
    is the text of the value followed by the offset of UTC. *)
Lemma isoformat_replace_UTC (d : Datetime.datetime) :
  Datetime.tzinfo d = None ->
  Datetime.isoformat (Datetime.replace_tzinfo d Datetime.UTC)
  = (Datetime.isoformat d ++ "+00:00")%string.
Proof.
  intros H. unfold Datetime.isoformat, Datetime.isoformat_sep.
  rewrite H. cbn [Datetime.replace_tzinfo Datetime.tzinfo Datetime.year
                  Datetime.month Datetime.day Datetime.hour Datetime.minute
                  Datetime.second Datetime.microsecond].
  change (Datetime.format_offset Datetime.UTC) with "+00:00".
  cbv zeta.
  repeat rewrite string_app_assoc. reflexivity.
Qed.

(** A string that the parser reads as a date without time zone is taken for
    UTC: the fields the parser gives are written as they are, followed by the
    offset of UTC; the same holds for a [datetime] without time zone. *)
Theorem transform_born_at_naive (s : string) (d : Datetime.datetime) :
  blank s = false ->
  parse s = Ok d ->
  Datetime.tzinfo d = None ->
  transform_born_at parse (Some (BornStr s))
  = Ok (Some (Datetime.isoformat d ++ "+00:00")%string)
  /\ transform_born_at parse (Some (BornDatetime d))
     = Ok (Some (Datetime.isoformat d ++ "+00:00")%string).
Proof.
  intros Hb Hp Ht. unfold transform_born_at, blank in *.
  rewrite Hb, Hp. cbn [bind]. rewrite Ht. cbn [bind].
  rewrite isoformat_replace_UTC by assumption. split; reflexivity.
Qed.

(** The record [transform_animal] returns has the [id], the [name] and the
    fields beyond the four named ones of the detail, unchanged. *)
Theorem transform_animal_copies (animal : AnimalDetail.t)
    (t : TransformedAnimal.t) :
  transform_animal parse animal = Ok t ->
  TransformedAnimal.id t = AnimalDetail.id animal
  /\ TransformedAnimal.name t = AnimalDetail.name animal
  /\ TransformedAnimal.extra t = AnimalDetail.extra animal.
Proof.
  unfold transform_animal.
  destruct (match AnimalDetail.born_at animal with
            | Some (BornDatetime d) => Ok (Some (Datetime.isoformat d))
            | v => transform_born_at parse v
            end) as [b|e]; cbn [bind].
  - intros [= <-]. auto.
  - destruct e; discriminate.
Qed.


(** [transform_born_at] raises a [TransformationError] only for the field
    [born_at], and without the id of a record. *)
Lemma transform_born_at_error v m i f :
  foreign_parser parse ->
  transform_born_at parse v = Raise (TransformationError m i f) ->
  i = None /\ f = Some "born_at".
Proof.
  intros Hf. unfold transform_born_at, astimezone_UTC.
  destruct v as [[s|d]|]; [| |discriminate].
  - destruct (strip s =? "")%string; [discriminate|].
    specialize (Hf s).
    destruct (parse s) as [d|e]; cbn [bind].
    + destruct (Datetime.tzinfo d); cbn [bind]; [|discriminate].
      destruct (Datetime.astimezone d Datetime.UTC); cbn [bind]; discriminate.
    + destruct e; try discriminate; [contradiction|].
      intros [= <- <- <-]. auto.
  - destruct (Datetime.tzinfo d); [|discriminate].
    destruct (Datetime.astimezone d Datetime.UTC); cbn [bind]; discriminate.
Qed.

(** Whatever goes wrong in [transform_animal], what it raises is a
    [TransformationError]: that of the field [born_at], which carries no id,
    or the one that wraps any other exception and carries the id of the
    record. *)
Theorem transform_animal_raises (animal : AnimalDetail.t) (e : exn) :
  foreign_parser parse ->
  transform_animal parse animal = Raise e ->
  exists m,
    e = TransformationError m None (Some "born_at")
    \/ e = TransformationError m (Some (AnimalDetail.id animal)) None.
Proof.
  intros Hf. unfold transform_animal.
  destruct (AnimalDetail.born_at animal) as [[s|d]|] eqn:Eb;
    try (cbn [bind transform_born_at]; discriminate).
  destruct (transform_born_at parse (Some (BornStr s))) as [b|e'] eqn:Et;
    cbn [bind]; [discriminate|].
  destruct e'; intros [= <-]; eauto.
  apply (transform_born_at_error _ _ _ _ Hf) in Et as [-> ->]. eauto.
Qed.

End transformer_more.

Section transformer_witnesses.
Import PyStr transformers.

Lemma transform_born_at_utc_witness :
  transform_born_at sample_parse (Some (BornStr "2020-01-01"))
  = Ok (Some "2020-01-01T00:00:00+00:00")
  /\ has_suffix "+00:00" "2020-01-01T00:00:00+00:00".
Proof.
  split; [reflexivity|].
  exact (transform_born_at_utc sample_parse (Some (BornStr "2020-01-01")) _
           eq_refl).
Defined.

Lemma sample_parse_foreign : foreign_parser sample_parse.
Proof.
  intros s. unfold sample_parse. now destruct (s =? "2020-01-01")%string.
Qed.

Lemma transform_animal_raises_witness :
  transform_animal sample_parse
    (AnimalDetail.make 3 "Rex" (AnimalDetail.FriendsInStr "")
       (AnimalDetail.BornInStr "not-a-date") [])
  = Raise (TransformationError
             "Failed to parse born_at value 'not-a-date': Unknown string format: not-a-date"
             None (Some "born_at"))
  /\ exists m,
       TransformationError
         "Failed to parse born_at value 'not-a-date': Unknown string format: not-a-date"
         None (Some "born_at")
       = TransformationError m None (Some "born_at")
       \/ TransformationError
            "Failed to parse born_at value 'not-a-date': Unknown string format: not-a-date"
            None (Some "born_at")
          = TransformationError m (Some 3) None.
Proof.
  split; [reflexivity|].
  exact (transform_animal_raises sample_parse
           (AnimalDetail.make 3 "Rex" (AnimalDetail.FriendsInStr "")
              (AnimalDetail.BornInStr "not-a-date") [])
           _ sample_parse_foreign eq_refl).
Defined.

End transformer_witnesses.

(** ** Normalising friends twice *)

Section friends_more.
Import PyStr transformers.

Lemma occurs_lstrip c s : occurs c s = false -> occurs c (lstrip s) = false.
Proof.
  induction s as [|d s IH]; simpl; [reflexivity|].
  intros H. apply orb_false_iff in H as [H1 H2].
  destruct (isspace d); [now apply IH|]. simpl. now rewrite H1, H2.
Qed.

Lemma occurs_rstrip c s : occurs c s = false -> occurs c (rstrip s) = false.
Proof.
  induction s as [|d s IH]; simpl; [reflexivity|].
  intros H. apply orb_false_iff in H as [H1 H2]. specialize (IH H2).
  destruct (rstrip s).
  - destruct (isspace d); simpl; [reflexivity|]. now rewrite H1.
  - simpl in *. now rewrite H1, IH.
Qed.

Lemma occurs_strip c s : occurs c s = false -> occurs c (strip s) = false.
Proof. intros H. apply occurs_rstrip, occurs_lstrip, H. Qed.

Lemma split_app_sep sep p s :
  occurs sep p = false ->
  split sep (p ++ String sep s) = p :: split sep s.
Proof.
  induction p as [|c p IH]; simpl; intros H.
  - now rewrite Ascii.eqb_refl.
  - apply orb_false_iff in H as [H1 H2].
    rewrite H1, (IH H2). reflexivity.
Qed.

Lemma split_no_occurrence sep p : occurs sep p = false -> split sep p = [p].
Proof.
  induction p as [|c p IH]; simpl; intros H; [reflexivity|].
  apply orb_false_iff in H as [H1 H2]. now rewrite H1, (IH H2).
Qed.

(** Joining pieces that hold no separator and splitting again gives the
    pieces. *)
Lemma split_join sep pieces :
  pieces <> [] -> Forall (fun p => occurs sep p = false) pieces ->
  split sep (join sep pieces) = pieces.
Proof.
  induction pieces as [|p ps IH]; [congruence|].
  intros _ H. inversion H as [|? ? Hp Hps]; subst.
  destruct ps as [|q qs].
  - simpl. now apply split_no_occurrence.
  - rewrite join_cons by discriminate.
    rewrite split_app_sep by assumption.
    rewrite IH by (try discriminate; assumption). reflexivity.
Qed.

Lemma transform_friends_pieces s :
  Forall (fun p => occurs "," p = false /\ strip p = p /\ p <> "")
    (transform_friends (Some s)).
Proof.
  rewrite transform_friends_filter.
  pose proof (split_no_sep "," s) as H.
  induction H as [|p ps Hp _ IH]; simpl; [constructor|].
  destruct (strip p =? "")%string eqn:E; simpl; [exact IH|].
  constructor; [|exact IH].
  repeat split.
  - now apply occurs_strip.
  - apply strip_strip.
  - now apply String.eqb_neq.
Qed.

(** The friends [transform_friends] gives, written again as one string with
    commas between them, are normalised to themselves: no friend holds a
    comma, none has white space around it, none is empty. *)
Theorem transform_friends_join (s : string) :
  transform_friends (Some (join "," (transform_friends (Some s))))
  = transform_friends (Some s).
Proof.
  pose proof (transform_friends_pieces s) as H.
  destruct (transform_friends (Some s)) as [|p ps] eqn:E; [reflexivity|].
  rewrite transform_friends_filter.
  rewrite split_join; [|discriminate|].
  - clear E. induction H as [|q qs (_ & Hq & Hne) _ IH]; simpl; [reflexivity|].
    rewrite Hq. apply String.eqb_neq in Hne. rewrite Hne. simpl.
    now rewrite IH.
  - eapply Forall_impl; [|exact H]. now intros q (Hq & _).
Qed.

End friends_more.

(** ** The client *)

Section client_more.
Import api_client.

Variable cfg : config.t.
Variable base_url : string.
Variable srv : server.

Lemma retry_attempts more req sent :
  exists n,
    (n <= more)%nat
    /\ snd (retry more (make_request_body base_url srv req) sent)
       = sent ++ repeat req (S n)
    /\ (forall j, (j < n)%nat ->
                  answered_ok srv (sent ++ repeat req j) req = false)
    /\ match fst (retry more (make_request_body base_url srv req) sent) with
       | Ok r =>
           srv (sent ++ repeat req n) req = Responded r
           /\ success_status (status_code r) = true
       | Raise e =>
           is_APIError e = true /\ n = more
           /\ answered_ok srv (sent ++ repeat req n) req = false
       end.
Proof.
  revert sent. induction more as [|more IH]; intros sent; simpl retry;
    pose proof (make_request_body_sent base_url srv req sent) as Hs;
    pose proof (make_request_body_ok base_url srv req sent) as Hok;
    pose proof (make_request_body_result base_url srv req sent) as Hr;
    destruct (make_request_body base_url srv req sent) as [[r|e] sent'];
    cbn [fst snd is_Ok] in Hs, Hok, Hr; subst sent'.
  - exists 0%nat. cbn [repeat fst snd]. rewrite app_nil_r.
    split; [lia|]. split; [reflexivity|]. split; [intros j Hj; lia|].
    exact Hr.
  - exists 0%nat. rewrite Hr, orb_true_r. cbn [repeat fst snd].
    rewrite app_nil_r.
    split; [lia|]. split; [reflexivity|]. split; [intros j Hj; lia|].
    repeat split; congruence.
  - exists 0%nat. cbn [repeat fst snd]. rewrite app_nil_r.
    split; [lia|]. split; [reflexivity|]. split; [intros j Hj; lia|].
    exact Hr.
  - rewrite Hr, orb_true_r.
    destruct (IH (sent ++ [req])) as (n & Hn & Hsent & Hbefore & Hres).
    exists (S n). split; [lia|]. split; [|split].
    + rewrite Hsent, <- app_assoc. reflexivity.
    + intros [|j] Hj.
      * cbn [repeat]. rewrite app_nil_r. congruence.
      * specialize (Hbefore j ltac:(lia)).
        rewrite <- app_assoc in Hbefore. exact Hbefore.
    + destruct (fst (retry more (make_request_body base_url srv req)
                       (sent ++ [req]))) as [r|e'];
        rewrite <- app_assoc in Hres; cbn [app repeat] in *.
      * exact Hres.
      * destruct Hres as (? & -> & ?). auto.
Qed.

(** [_make_request] sends the request again and again, [max 1 MAX_RETRIES]
    times at most: it returns the response of the first attempt that the
    server answers with a success, and it raises, an [APIError], only when
    all the attempts allowed have failed. *)
Theorem make_request_attempts (req : request) (sent : list request) :
  exists n,
    (n < Z.to_nat (Z.max 1 (config.MAX_RETRIES cfg)))%nat
    /\ snd (_make_request cfg base_url srv req sent) = sent ++ repeat req (S n)
    /\ (forall j, (j < n)%nat ->
                  answered_ok srv (sent ++ repeat req j) req = false)
    /\ match fst (_make_request cfg base_url srv req sent) with
       | Ok r =>
           srv (sent ++ repeat req n) req = Responded r
           /\ success_status (status_code r) = true
       | Raise e =>
           is_APIError e = true
           /\ S n = Z.to_nat (Z.max 1 (config.MAX_RETRIES cfg))
           /\ answered_ok srv (sent ++ repeat req n) req = false
       end.
Proof.
  unfold _make_request.
  destruct (retry_attempts (further_attempts cfg) req sent)
    as (n & Hn & Hs & Hb & Hr).
  assert (Hf : S (further_attempts cfg)
               = Z.to_nat (Z.max 1 (config.MAX_RETRIES cfg)))
    by (unfold further_attempts; lia).
  exists n. split; [lia|]. split; [assumption|]. split; [assumption|].
  destruct (fst (retry (further_attempts cfg)
                   (make_request_body base_url srv req) sent)); [assumption|].
  destruct Hr as (? & -> & ?). auto.
Qed.

Lemma parse_page_ok r p :
  parse_page r = Ok p ->
  1 <= PaginatedResponse.page p /\ 1 <= PaginatedResponse.total_pages p
  /\ data r = PageObject (Some (PaginatedResponse.page p))
                (Some (PaginatedResponse.total_pages p))
                (PaginatedResponse.items p).
Proof.
  unfold parse_page, PaginatedResponse.check_pagination.
  destruct (data r) as [| | | |[pg|] [tp|] items|]; try discriminate;
    cbn [bind].
  - destruct (pg <? 1) eqn:E1; [discriminate|].
    destruct (tp <? 1) eqn:E2; [discriminate|].
    cbn [bind]. intros [= <-]. cbn. repeat split; lia.
  - destruct (pg <? 1); discriminate.
  - destruct (tp <? 1); discriminate.
Qed.

Lemma parse_page_raises r e :
  parse_page r = Raise e ->
  is_ValueError e = true \/ exists m, e = TypeError m.
Proof.
  unfold parse_page, PaginatedResponse.check_pagination.
  destruct (data r) as [| | | |[pg|] [tp|] items|]; cbn [bind];
    try (intros [= <-]; eauto; fail).
  - destruct (pg <? 1); [intros [= <-]; auto|].
    destruct (tp <? 1); [intros [= <-]; auto|]. discriminate.
  - destruct (pg <? 1); intros [= <-]; auto.
  - destruct (tp <? 1); intros [= <-]; auto.
Qed.

Lemma get_animals_page_ok page page_size sent p :
  fst (get_animals_page cfg base_url srv page page_size sent) = Ok p ->
  1 <= PaginatedResponse.page p /\ 1 <= PaginatedResponse.total_pages p
  /\ exists hist r,
       srv hist (list_request page page_size) = Responded r
       /\ data r = PageObject (Some (PaginatedResponse.page p))
                     (Some (PaginatedResponse.total_pages p))
                     (PaginatedResponse.items p).
Proof.
  unfold get_animals_page.
  destruct (make_request_spec cfg base_url srv (list_request page page_size)
              sent) as (n & _ & _ & Hres).
  destruct (_make_request cfg base_url srv (list_request page page_size) sent)
    as [[r|e] sent']; cbn [fst snd bind] in *.
  - destruct (parse_page r) as [q|e] eqn:Ep; cbn [invalid_format].
    + intros [= <-]. apply parse_page_ok in Ep as (H1 & H2 & H3).
      destruct Hres as [Hr _]. eauto 6.
    + destruct e; discriminate.
  - destruct e; discriminate.
Qed.

(** A page [get_animals_page] returns has a number and a count of pages of
    at least 1, whatever the server answers; a response it cannot read as
    such a page makes it raise an [APIError], or the [TypeError] of a JSON
    value that is no object or of a page number that is no number. *)
Theorem get_animals_page_result (page page_size : Z) (sent : list request) :
  match fst (get_animals_page cfg base_url srv page page_size sent) with
  | Ok p =>
      1 <= PaginatedResponse.page p /\ 1 <= PaginatedResponse.total_pages p
  | Raise e => is_APIError e = true \/ exists m, e = TypeError m
  end.
Proof.
  pose proof (get_animals_page_ok page page_size sent) as Hok.
  unfold get_animals_page in *.
  destruct (make_request_spec cfg base_url srv (list_request page page_size)
              sent) as (n & _ & _ & Hres).
  destruct (_make_request cfg base_url srv (list_request page page_size) sent)
    as [[r|e] sent']; cbn [fst snd bind] in *.
  - destruct (parse_page r) as [q|e] eqn:Ep; cbn [invalid_format] in *.
    + destruct (Hok q eq_refl) as (H1 & H2 & _). auto.
    + apply parse_page_raises in Ep as [Hv|[m ->]];
        [destruct e; try discriminate|]; cbn; eauto.
  - destruct Hres as [He _]. destruct e; try discriminate. cbn. auto.
Qed.


Lemma get_all_animals_loop_ends bound fuel :
  pages_bounded srv bound ->
  forall current_page all_animals sent,
    (Z.to_nat (bound - current_page) < fuel)%nat ->
    exists res,
      get_all_animals_loop cfg base_url srv fuel current_page all_animals sent
      = Some res.
Proof.
  intros Hb. induction fuel as [|fuel IH];
    intros current_page all_animals sent Hfuel; [lia|].
  rewrite get_all_animals_loop_S.
  pose proof (get_animals_page_ok current_page (config.DEFAULT_PAGE_SIZE cfg)
                sent) as Hok.
  destruct (get_animals_page cfg base_url srv current_page
              (config.DEFAULT_PAGE_SIZE cfg) sent) as [[p|e] sent1];
    cbn [fst] in Hok; [|eauto].
  destruct (Hok p eq_refl) as (_ & _ & hist & r & Hr & Hd).
  pose proof (Hb _ _ _ _ _ _ Hr Hd) as Htp.
  destruct (PaginatedResponse.total_pages p <=? current_page) eqn:E; [eauto|].
  apply IH. apply Z.leb_gt in E. lia.
Qed.

(** When the server never reports more than [bound] pages, the loop of
    [get_all_animals] ends: it takes [bound - START_PAGE + 1] turns at most,
    and one turn when the first page is at or past the bound. *)
Theorem get_all_animals_ends (bound : Z) (fuel : nat) (sent : list request) :
  pages_bounded srv bound ->
  (Z.to_nat (bound - config.START_PAGE cfg) < fuel)%nat ->
  exists res sent',
    get_all_animals cfg base_url srv fuel sent = Some (res, sent').
Proof.
  intros Hb Hfuel. unfold get_all_animals.
  destruct (get_all_animals_loop_ends bound fuel Hb (config.START_PAGE cfg) []
              sent Hfuel) as ([res sent'] & H).
  eauto.
Qed.

Lemma detail_gets_app s1 s2 new1 new2 :
  detail_gets s1 new1 -> detail_gets s2 new2 ->
  detail_gets (s1 ++ s2) (new1 ++ new2).
Proof.
  induction 1; simpl; [auto|].
  intros H2. rewrite <- app_assoc. constructor. auto.
Qed.

Lemma get_animal_detail_sent animal_id sent :
  exists n,
    snd (get_animal_detail cfg base_url srv animal_id sent)
    = sent ++ repeat (detail_request animal_id) (S n).
Proof.
  unfold get_animal_detail.
  destruct (make_request_spec cfg base_url srv (detail_request animal_id) sent)
    as (n & _ & Hs & _).
  exists n.
  now destruct (_make_request cfg base_url srv (detail_request animal_id) sent).
Qed.

Lemma get_all_animal_details_loop_spec animal_summaries :
  forall animal_details failed_count sent,
    match
      fst (get_all_animal_details_loop cfg base_url srv animal_summaries
             animal_details sent)
    with
    | Ok details =>
        List.length details
        = (List.length animal_details + List.length animal_summaries)%nat
        /\ etl_processor.extract_animal_details_loop cfg base_url srv
             animal_summaries animal_details failed_count sent
           = (Ok (details, failed_count),
              snd (get_all_animal_details_loop cfg base_url srv
                     animal_summaries animal_details sent))
        /\ exists new,
             snd (get_all_animal_details_loop cfg base_url srv
                    animal_summaries animal_details sent)
             = sent ++ new
             /\ detail_gets animal_summaries new
    | Raise e => is_APIError e = true \/ exists m, e = TypeError m
    end.
Proof.
  induction animal_summaries as [|s rest IH];
    intros animal_details failed_count sent;
    cbn [get_all_animal_details_loop etl_processor.extract_animal_details_loop].
  - cbn [fst snd List.length]. split; [lia|]. split; [reflexivity|].
    exists []. rewrite app_nil_r. split; [reflexivity|constructor].
  - destruct (get_animal_detail_sent (AnimalSummary.id s) sent) as (n & Hs).
    pose proof (get_animal_detail_raises cfg base_url srv (AnimalSummary.id s)
                  sent) as Hr.
    destruct (get_animal_detail cfg base_url srv (AnimalSummary.id s) sent)
      as [[d|e] sent1]; cbn [fst snd] in *; subst sent1.
    + specialize (IH (animal_details ++ [d]) failed_count
                    (sent ++ repeat (detail_request (AnimalSummary.id s)) (S n))).
      destruct (fst (get_all_animal_details_loop cfg base_url srv rest
                       (animal_details ++ [d])
                       (sent ++ repeat (detail_request (AnimalSummary.id s))
                                  (S n)))) as [details|e]; [|assumption].
      destruct IH as (Hl & He & new & Hn & Hg).
      rewrite length_app in Hl. cbn [List.length] in *.
      split; [lia|]. split; [assumption|].
      exists (repeat (detail_request (AnimalSummary.id s)) (S n) ++ new).
      rewrite Hn, <- app_assoc. split; [reflexivity|]. now constructor.
    + now apply Hr.
Qed.

Lemma get_all_animal_details_loop_raises animal_summaries :
  forall animal_details sent e,
    fst (get_all_animal_details_loop cfg base_url srv animal_summaries
           animal_details sent) = Raise e ->
    exists fetched s rest details sent1 n,
      animal_summaries = fetched ++ s :: rest
      /\ get_all_animal_details_loop cfg base_url srv fetched animal_details
           sent
         = (Ok details, sent1)
      /\ (exists new, sent1 = sent ++ new /\ detail_gets fetched new)
      /\ get_animal_detail cfg base_url srv (AnimalSummary.id s) sent1
         = (Raise e,
            snd (get_all_animal_details_loop cfg base_url srv
                   animal_summaries animal_details sent))
      /\ snd (get_all_animal_details_loop cfg base_url srv animal_summaries
                animal_details sent)
         = sent1 ++ repeat (detail_request (AnimalSummary.id s)) (S n).
Proof.
  induction animal_summaries as [|s rest IH]; intros animal_details sent e;
    cbn [get_all_animal_details_loop].
  - discriminate.
  - destruct (get_animal_detail_sent (AnimalSummary.id s) sent) as (n & Hs).
    destruct (get_animal_detail cfg base_url srv (AnimalSummary.id s) sent)
      as [[d|e'] sent1] eqn:Eg; cbn [fst snd] in *.
    + intros H.
      destruct (IH _ _ _ H)
        as (fetched & s' & rest' & details & sent2 & n' & -> & Hl
            & (new & -> & Hg) & Hd & Hsnd).
      exists (s :: fetched), s', rest', details, (sent1 ++ new), n'.
      split; [reflexivity|]. split.
      { cbn [get_all_animal_details_loop]. rewrite Eg. exact Hl. }
      split; [|split; assumption].
      exists (repeat (detail_request (AnimalSummary.id s)) (S n) ++ new).
      subst sent1. rewrite app_assoc. split; [reflexivity|].
      now constructor.
    + intros [= ->].
      exists [], s, rest, animal_details, sent, n.
      split; [reflexivity|]. split; [reflexivity|]. split.
      { exists []. rewrite app_nil_r. split; [reflexivity|constructor]. }
      split; [exact Eg|exact Hs].
Qed.

(** [get_all_animal_details] gives all the details or none.  When it
    returns, it returns one detail for every summary, the details the
    processor's own loop collects from the same requests without any
    failure, and it has requested the detail of every summary in the order of
    the summaries.  When it raises, the summaries are some summaries
    [fetched], a summary [s] and the summaries [rest]: the details of
    [fetched] were all fetched, one for each, by requests in their order; the
    fetch for [s], made next, raised, and its exception, an [APIError] or the
    [TypeError] of a JSON value that is no object, is the exception raised;
    the requests for [s] are the last ones sent, so no detail of [rest] has
    been requested. *)
Theorem get_all_animal_details_all
    (animal_summaries : list AnimalSummary.t) (sent : list request) :
  match fst (get_all_animal_details cfg base_url srv animal_summaries sent) with
  | Ok details =>
      List.length details = List.length animal_summaries
      /\ etl_processor.extract_animal_details_loop cfg base_url srv
           animal_summaries [] 0 sent
         = (Ok (details, 0),
            snd (get_all_animal_details cfg base_url srv animal_summaries sent))
      /\ exists new,
           snd (get_all_animal_details cfg base_url srv animal_summaries sent)
           = sent ++ new
           /\ detail_gets animal_summaries new
  | Raise e =>
      (is_APIError e = true \/ exists m, e = TypeError m)
      /\ exists fetched s rest details sent1 n,
           animal_summaries = fetched ++ s :: rest
           /\ get_all_animal_details cfg base_url srv fetched sent
              = (Ok details, sent1)
           /\ List.length details = List.length fetched
           /\ (exists new, sent1 = sent ++ new /\ detail_gets fetched new)
           /\ get_animal_detail cfg base_url srv (AnimalSummary.id s) sent1
              = (Raise e,
                 snd (get_all_animal_details cfg base_url srv
                        animal_summaries sent))
           /\ snd (get_all_animal_details cfg base_url srv animal_summaries
                     sent)
              = sent1 ++ repeat (detail_request (AnimalSummary.id s)) (S n)
  end.
Proof.
  unfold get_all_animal_details.
  generalize (get_all_animal_details_loop_spec animal_summaries [] 0 sent).
  destruct (fst (get_all_animal_details_loop cfg base_url srv
                   animal_summaries [] sent)) as [details|e] eqn:E.
  - intros H. exact H.
  - intros H. split; [exact H|].
    destruct (get_all_animal_details_loop_raises _ _ _ _ E)
      as (fetched & s & rest & details & sent1 & n & Hsplit & Hl & Hnew
          & Hd & Hsnd).
    exists fetched, s, rest, details, sent1, n.
    split; [exact Hsplit|]. split; [exact Hl|]. split.
    { pose proof (get_all_animal_details_loop_spec fetched [] 0 sent) as Hf.
      rewrite Hl in Hf. cbn [fst] in Hf. destruct Hf as [Hlen _].
      exact Hlen. }
    split; [exact Hnew|]. split; [exact Hd|exact Hsnd].
Qed.

Lemma extract_animal_details_loop_requests animal_summaries :
  forall animal_details failed_count sent r sent',
    etl_processor.extract_animal_details_loop cfg base_url srv animal_summaries
      animal_details failed_count sent = (Ok r, sent') ->
    exists new, sent' = sent ++ new /\ detail_gets animal_summaries new.
Proof.
  induction animal_summaries as [|s rest IH];
    intros animal_details failed_count sent r sent';
    cbn [etl_processor.extract_animal_details_loop].
  - intros [= <- <-]. exists []. rewrite app_nil_r. split; [auto|constructor].
  - destruct (get_animal_detail_sent (AnimalSummary.id s) sent) as (n & Hs).
    destruct (get_animal_detail cfg base_url srv (AnimalSummary.id s) sent)
      as [[d|e] sent1]; cbn [snd] in Hs; subst sent1.
    + intros H. apply IH in H as (new & -> & Hg).
      exists (repeat (detail_request (AnimalSummary.id s)) (S n) ++ new).
      rewrite <- app_assoc. split; [reflexivity|]. now constructor.
    + destruct (is_APIError e); [|discriminate].
      intros H. apply IH in H as (new & -> & Hg).
      exists (repeat (detail_request (AnimalSummary.id s)) (S n) ++ new).
      rewrite <- app_assoc. split; [reflexivity|]. now constructor.
Qed.

End client_more.

(** ** The processor and the dry run *)

Section processor_more.
Import api_client etl_processor.

Variable cfg : config.t.
Variable base_url : string.
Variable srv : server.
Variable parse : string -> result Datetime.datetime.
Variable batch_size : Z.

(** When [extract_animal_details] returns, it has requested the detail of
    every summary, in the order of the summaries and whatever became of the
    requests before: a fetch that fails with an [APIError] does not stop the
    ones after it. *)
Theorem extract_animal_details_requests
    (animal_summaries : list AnimalSummary.t) (stats : ETLStats.t)
    (sent : list request) (animal_details : list AnimalDetail.t)
    (stats' : ETLStats.t) (sent' : list request) :
  extract_animal_details cfg base_url srv animal_summaries stats sent
  = (Ok animal_details, stats', sent') ->
  exists new,
    sent' = sent ++ new /\ detail_gets animal_summaries new
    /\ ETLStats.total_animals_detailed stats'
       + ETLStats.failed_details stats'
       = len animal_summaries.
Proof.
  unfold extract_animal_details.
  pose proof (extract_animal_details_loop_requests cfg base_url srv
                animal_summaries [] 0 sent) as Hreq.
  destruct (extract_animal_details_loop_spec cfg base_url srv animal_summaries
              [] 0 sent) as [_ Hcount].
  destruct (extract_animal_details_loop cfg base_url srv animal_summaries [] 0
              sent) as [[[details failed]|e] sent1]; [|discriminate].
  intros [= <- <- <-].
  destruct (Hreq _ _ eq_refl) as (new & -> & Hg).
  exists new. split; [reflexivity|]. split; [assumption|].
  cbn [fst] in Hcount. unfold len in *. cbn in *. lia.
Qed.

(** With a positive batch size, [load_animals] returns [True] only when every
    batch has been submitted with success: all the records are counted as
    submitted, and no submission as failed. *)
Theorem load_animals_success
    (transformed_animals : list TransformedAnimal.t) (stats : ETLStats.t)
    (sent : list request) (stats' : ETLStats.t) (sent' : list request) :
  0 < batch_size ->
  load_animals cfg base_url srv batch_size transformed_animals stats sent
  = (Ok true, stats', sent') ->
  ETLStats.total_animals_submitted stats' = len transformed_animals
  /\ ETLStats.failed_submissions stats' = 0
  /\ exists new,
       sent' = sent ++ new
       /\ List.concat (successful_posts srv sent new) = transformed_animals.
Proof.
  intros Hb.
  destruct (load_batches_partition batch_size transformed_animals Hb)
    as (batches & Hbs & Hc & _).
  pose proof (load_animals_spec cfg base_url srv batch_size
                transformed_animals stats sent) as Hl.
  rewrite Hbs in Hl. destruct Hl as (oks & sent1 & Hld & ->).
  intros [= Hv <- <-]. apply Z.eqb_eq in Hv.
  destruct (loaded_posts _ _ _ _ _ _ _ Hld) as (new & -> & _ & Hp).
  apply (succeeded_all batches oks (loaded_length _ _ _ _ _ _ _ Hld)) in Hv.
  cbn [ETLStats.total_animals_submitted ETLStats.failed_submissions
       ETLStats.with_submitted].
  rewrite Hv, total_len_concat, Hc. split; [reflexivity|].
  split.
  - apply (succeeded_all batches oks (loaded_length _ _ _ _ _ _ _ Hld)).
    assumption.
  - exists new. split; [reflexivity|]. now rewrite Hp, Hv.
Qed.

(** With a negative batch size the range of [load_animals] is empty: no batch
    is formed and no request sent, nothing is counted as submitted, and
    [load_animals] returns [True] however many records it is given. *)
Theorem load_animals_negative
    (transformed_animals : list TransformedAnimal.t) (stats : ETLStats.t)
    (sent : list request) :
  batch_size < 0 ->
  load_animals cfg base_url srv batch_size transformed_animals stats sent
  = (Ok true, ETLStats.with_submitted stats 0 0 0, sent).
Proof.
  intros Hb. unfold load_animals, py_range.
  assert (E1 : (batch_size =? 0) = false) by lia.
  assert (E2 : (0 <? batch_size) = false) by lia.
  assert (E3 : (0 <=? len transformed_animals) = true)
    by (apply Z.leb_le; unfold len; lia).
  rewrite E1, E2, E3. reflexivity.
Qed.

Lemma make_request_all_get req sent :
  method req = GET ->
  exists new,
    snd (_make_request cfg base_url srv req sent) = sent ++ new
    /\ Forall (fun r => method r = GET) new.
Proof.
  intros Hm.
  destruct (make_request_spec cfg base_url srv req sent) as (n & _ & Hs & _).
  exists (repeat req (S n)). split; [assumption|].
  apply Forall_forall. intros r Hr. apply repeat_spec in Hr. now subst.
Qed.

Lemma get_all_animals_loop_all_get fuel :
  forall current_page all_animals sent r sent',
    get_all_animals_loop cfg base_url srv fuel current_page all_animals sent
    = Some (r, sent') ->
    exists new, sent' = sent ++ new /\ Forall (fun r => method r = GET) new.
Proof.
  induction fuel as [|fuel IH]; intros current_page all_animals sent r sent';
    [discriminate|].
  rewrite get_all_animals_loop_S. unfold get_animals_page.
  destruct (make_request_all_get
              (list_request current_page (config.DEFAULT_PAGE_SIZE cfg)) sent
              eq_refl) as (new1 & Hs & Hg).
  destruct (_make_request cfg base_url srv
              (list_request current_page (config.DEFAULT_PAGE_SIZE cfg)) sent)
    as [res sent1]; cbn [snd] in Hs; subst sent1.
  destruct (invalid_format "Invalid response format: "
              (response <- res ;; parse_page response)) as [p|e].
  - destruct (PaginatedResponse.total_pages p <=? current_page).
    + intros [= <- <-]. eauto.
    + intros H. apply IH in H as (new2 & -> & Hg2).
      exists (new1 ++ new2). rewrite app_assoc. split; [reflexivity|].
      apply Forall_app. auto.
  - intros [= <- <-]. eauto.
Qed.

Lemma extract_animal_details_loop_all_get animal_summaries :
  forall animal_details failed_count sent,
    exists new,
      snd (extract_animal_details_loop cfg base_url srv animal_summaries
             animal_details failed_count sent) = sent ++ new
      /\ Forall (fun r => method r = GET) new.
Proof.
  induction animal_summaries as [|s rest IH];
    intros animal_details failed_count sent;
    cbn [extract_animal_details_loop].
  - exists []. rewrite app_nil_r. auto.
  - unfold get_animal_detail.
    destruct (make_request_all_get (detail_request (AnimalSummary.id s)) sent
                eq_refl) as (new1 & Hs & Hg).
    destruct (_make_request cfg base_url srv
                (detail_request (AnimalSummary.id s)) sent)
      as [res sent1]; cbn [snd] in Hs; subst sent1.
    destruct (invalid_format _ (response <- res ;; parse_detail response))
      as [d|e].
    + destruct (IH (animal_details ++ [d]) failed_count (sent ++ new1))
        as (new2 & -> & Hg2).
      exists (new1 ++ new2). rewrite app_assoc. split; [reflexivity|].
      apply Forall_app. auto.
    + destruct (is_APIError e).
      * destruct (IH animal_details (failed_count + 1) (sent ++ new1))
          as (new2 & -> & Hg2).
        exists (new1 ++ new2). rewrite app_assoc. split; [reflexivity|].
        apply Forall_app. auto.
      * exists new1. auto.
Qed.

(** A dry run on a processor whose [start_time] is not set, as [cli] builds
    it: it sends GET requests only and counts nothing as submitted; and it
    returns [True] only when the extraction finds no summary, since with a
    summary found it ends in [_log_final_stats], which raises on the missing
    duration, and the [except] of [run_dry_run] returns [False]. *)
Theorem run_dry_run_result (fuel : nat) (end_time : option Z)
    (stats : ETLStats.t) (sent : list request) (verdict : bool)
    (stats' : ETLStats.t) (sent' : list request) :
  main.run_dry_run cfg base_url srv parse fuel None end_time stats sent
  = Some (verdict, stats', sent') ->
  (verdict = true
   <-> extract_animals cfg base_url srv fuel stats sent
       = Some (Ok [], stats', sent'))
  /\ ETLStats.total_animals_submitted stats'
     = ETLStats.total_animals_submitted stats
  /\ exists new,
       sent' = sent ++ new /\ Forall (fun r => method r = GET) new.
Proof.
  unfold main.run_dry_run.
  pose proof (get_all_animals_loop_all_get fuel (config.START_PAGE cfg) []
                sent) as Hx.
  unfold extract_animals, get_all_animals in *.
  destruct (get_all_animals_loop cfg base_url srv fuel (config.START_PAGE cfg)
              [] sent) as [[[summaries|e] sent1]|]; [| |discriminate].
  2: { destruct (Hx _ _ eq_refl) as (new & -> & Hg).
       intros [= <- <- <-]. split; [split; discriminate|]. eauto. }
  destruct (Hx _ _ eq_refl) as (new1 & -> & Hg1).
  destruct summaries as [|s summaries].
  { intros [= <- <- <-]. split; [tauto|]. cbn. eauto. }
  unfold extract_animal_details.
  destruct (extract_animal_details_loop_all_get (s :: summaries) [] 0
              (sent ++ new1)) as (new2 & Hs2 & Hg2).
  destruct (extract_animal_details_loop cfg base_url srv (s :: summaries) [] 0
              (sent ++ new1)) as [[[details failed]|e] sent2];
    cbn [snd] in Hs2; subst sent2.
  - cbn [transform_animals main._log_final_stats main.duration_seconds].
    intros [= <- <- <-]. split; [split; discriminate|]. split; [reflexivity|].
    exists (new1 ++ new2). rewrite app_assoc. split; [reflexivity|].
    apply Forall_app. auto.
  - intros [= <- <- <-]. split; [split; discriminate|]. split; [reflexivity|].
    exists (new1 ++ new2). rewrite app_assoc. split; [reflexivity|].
    apply Forall_app. auto.
Qed.

End processor_more.

(** ** The further properties on the sample inputs *)

Section more_witnesses.
Import PyStr transformers api_client etl_processor samples.

Lemma transform_born_at_naive_witness :
  blank "2020-01-01" = false
  /\ sample_parse "2020-01-01" = Ok (Datetime.mk_datetime 2020 1 1 0 0 0 0 None)
  /\ transform_born_at sample_parse (Some (BornStr "2020-01-01"))
     = Ok (Some "2020-01-01T00:00:00+00:00").
Proof.
  split; [reflexivity|]. split; [reflexivity|].
  exact (proj1 (transform_born_at_naive sample_parse "2020-01-01"
                  (Datetime.mk_datetime 2020 1 1 0 0 0 0 None)
                  eq_refl eq_refl eq_refl)).
Defined.

Lemma transform_animal_copies_witness :
  transform_animal sample_parse detail_with_blank_friend
  = Ok {| TransformedAnimal.id := 7; TransformedAnimal.name := "Rex";
          TransformedAnimal.friends := ["Ann"; " "];
          TransformedAnimal.born_at := None; TransformedAnimal.extra := [] |}
  /\ (7 = AnimalDetail.id detail_with_blank_friend
      /\ "Rex" = AnimalDetail.name detail_with_blank_friend
      /\ [] = AnimalDetail.extra detail_with_blank_friend).
Proof.
  split; [reflexivity|].
  exact (transform_animal_copies sample_parse detail_with_blank_friend _
           eq_refl).
Defined.

Lemma listing_server_bounded pages :
  pages_bounded (listing_server pages) (Z.of_nat (List.length pages)).
Proof.
  intros hist req r p tp items. unfold listing_server, ok_response.
  destruct (method req).
  - destruct (url req =? config.ANIMALS_LIST_ENDPOINT)%string.
    + destruct (params req) as [|[k page] rest].
      * intros [= <-]. discriminate.
      * destruct ((1 <=? page) && (page <=? Z.of_nat (List.length pages))).
        -- intros [= <-]. cbn [data]. intros [= _ <- _]. lia.
        -- intros [= <-]. discriminate.
    + intros [= <-]. discriminate.
  - intros [= <-]. discriminate.
Qed.

Lemma get_all_animals_ends_witness :
  exists res sent',
    get_all_animals config.defaults base_url (listing_server two_pages) 2 []
    = Some (res, sent').
Proof.
  exact (get_all_animals_ends config.defaults base_url
           (listing_server two_pages) 2 2 []
           (listing_server_bounded two_pages) (le_n 2)).
Defined.

Lemma extract_animal_details_requests_witness :
  exists animal_details stats' sent',
    extract_animal_details config.defaults base_url (listing_server two_pages)
      [summary 1; summary 2] ETLStats.initial []
    = (Ok animal_details, stats', sent')
    /\ exists new,
         sent' = [] ++ new /\ detail_gets [summary 1; summary 2] new
         /\ ETLStats.total_animals_detailed stats'
            + ETLStats.failed_details stats' = 2.
Proof.
  eexists _, _, _. split; [vm_compute; reflexivity|].
  exact (extract_animal_details_requests config.defaults base_url
           (listing_server two_pages) [summary 1; summary 2] ETLStats.initial
           [] _ _ _ eq_refl).
Defined.

Lemma load_animals_success_witness :
  0 < 2
  /\ exists stats' sent',
       load_animals config.defaults base_url (listing_server two_pages) 2
         (map record [1; 2; 3]) ETLStats.initial []
       = (Ok true, stats', sent')
       /\ ETLStats.total_animals_submitted stats' = 3
       /\ ETLStats.failed_submissions stats' = 0.
Proof.
  split; [reflexivity|].
  eexists _, _. split; [vm_compute; reflexivity|].
  pose proof (load_animals_success config.defaults base_url
                (listing_server two_pages) 2 (map record [1; 2; 3])
                ETLStats.initial [] _ _ eq_refl eq_refl) as H.
  exact (conj (proj1 H) (proj1 (proj2 H))).
Defined.

Lemma load_animals_negative_witness :
  -5 < 0
  /\ load_animals config.defaults base_url (listing_server two_pages) (-5)
       (map record [1; 2; 3]) ETLStats.initial []
     = (Ok true, ETLStats.with_submitted ETLStats.initial 0 0 0, []).
Proof.
  split; [reflexivity|].
  exact (load_animals_negative config.defaults base_url
           (listing_server two_pages) (-5) (map record [1; 2; 3])
           ETLStats.initial [] eq_refl).
Defined.

Lemma run_dry_run_result_witness :
  exists stats' sent',
    main.run_dry_run config.defaults base_url (listing_server two_pages)
      sample_parse 2 None None ETLStats.initial []
    = Some (false, stats', sent')
    /\ ETLStats.total_animals_transformed stats' = 5
    /\ ETLStats.total_animals_submitted stats'
       = ETLStats.total_animals_submitted ETLStats.initial
    /\ exists new,
         sent' = [] ++ new /\ Forall (fun r => method r = GET) new.
Proof.
  eexists _, _. split; [vm_compute; reflexivity|]. split; [reflexivity|].
  exact (proj2 (run_dry_run_result config.defaults base_url
                  (listing_server two_pages) sample_parse 2 None
                  ETLStats.initial [] false _ _ eq_refl)).
Defined.

End more_witnesses.
